(** * MandalaArt.py: the generation pipeline and its session state

    A shallow embedding of [src/MandalaArt.py].  Python strings are
    sequences of Unicode code points; the calls that leave the process
    (the API client, the HTTP fetch, the image decoder and encoder, the
    clock) are answered by a [World]; a script run threads the Streamlit
    session state and records every external call and every widget it
    draws. *)

From Stdlib Require Import List NArith ZArith String Ascii Bool Lia.
From Stdlib Require Import DecimalString.
Import ListNotations.

Local Open Scope N_scope.
Local Open Scope list_scope.

(** ** Python strings *)

Module Py.

(** A Python [str] is a sequence of code points. *)
Definition char : Type := N.
Definition str : Type := list char.

(** An ASCII literal of the source. *)
Definition lit (s : string) : str :=
  List.map N_of_ascii (list_ascii_of_string s).

(** The double quote, which the literals above cannot hold. *)
Definition dq : str := [34].

(** [str.isspace] on one code point, the test [str.strip()] uses. *)
Definition isspace (c : char) : bool :=
  ((9 <=? c) && (c <=? 13)) || ((28 <=? c) && (c <=? 32))
  || (c =? 133) || (c =? 160) || (c =? 5760)
  || ((8192 <=? c) && (c <=? 8202))
  || (c =? 8232) || (c =? 8233) || (c =? 8239) || (c =? 8287) || (c =? 12288).

Fixpoint lstrip (s : str) : str :=
  match s with
  | [] => []
  | c :: t => if isspace c then lstrip t else s
  end.

Definition rstrip (s : str) : str := rev (lstrip (rev s)).

(** [s.strip()] *)
Definition strip (s : str) : str := rstrip (lstrip s).

(** Truth value of a string: non-empty. *)
Definition truthy (s : str) : bool :=
  match s with [] => false | _ :: _ => true end.

(** [a and b] on strings: the first operand when it is falsy, else the
    second. *)
Definition and_ (a b : str) : str := if truthy a then b else a.

(** [len(s)] *)
Definition len (s : str) : N := N.of_nat (List.length s).

(** [str(n)] for a non-negative integer. *)
Definition of_int (n : N) : str :=
  lit (NilZero.string_of_uint (N.to_uint n)).

(** [b.startswith(a)] *)
Fixpoint startswith (a b : str) : bool :=
  match a, b with
  | [], _ => true
  | x :: a', y :: b' => (x =? y) && startswith a' b'
  | _ :: _, [] => false
  end.

(** [a in b] *)
Fixpoint contains (a b : str) : bool :=
  startswith a b || match b with [] => false | _ :: b' => contains a b' end.

(** [a] occurs in [b] as a contiguous run. *)
Definition occurs_in (a b : str) : Prop :=
  exists pre post, b = pre ++ a ++ post.

(** A string made of white space only (the empty one included). *)
Definition blank (s : str) : Prop := Forall (fun c => isspace c = true) s.

End Py.

Import Py.

(** ** The prompt template (lines 66-81) *)

Definition nl : str := [10].

Definition prompt_head : str :=
  lit "Create a beautiful, intricate black and white mandala design inspired by the word '".

Definition prompt_body : str :=
  lit "'. " ++ nl ++
  lit "    The mandala should be:" ++ nl ++
  lit "    - Completely black and white (no colors, no grayscale - pure black lines on white background)" ++ nl ++
  lit "    - Perfectly symmetrical and circular" ++ nl ++
  lit "    - Featuring intricate geometric patterns, sacred geometry, and detailed ornamental elements" ++ nl ++
  lit "    - Incorporating symbolic elements related to '".

Definition prompt_tail : str :=
  lit "'" ++ nl ++
  lit "    - High contrast with crisp, clean lines" ++ nl ++
  lit "    - Suitable for meditation and coloring" ++ nl ++
  lit "    - Professional quality with fine details" ++ nl ++
  lit "    - Centered on a pure white background" ++ nl ++
  lit "    " ++ nl ++
  lit "    Style: Traditional mandala art, spiritual, meditative, geometric, ornate, detailed line art".

(** [generate_mandala_prompt(inspiration_word)] *)
Definition generate_mandala_prompt (inspiration_word : str) : str :=
  prompt_head ++ inspiration_word ++ prompt_body
              ++ inspiration_word ++ prompt_tail.

(** ** Values of the libraries the script calls *)

Definition bytes : Type := list N.

(** A decoded [PIL.Image.Image]: its [size] (width, height) and raster. *)
Record PILImage : Type := { im_size : N * N; im_raster : list N }.

(** The client object of [openai.OpenAI(api_key=...)]; it keeps the key it
    was built with. *)
Record OpenAI : Type := { client_api_key : str }.

(** The keyword arguments of [client.images.generate]. *)
Record ImageRequest : Type :=
  { req_model : str; req_prompt : str; req_size : str;
    req_quality : str; req_n : N }.

(** [response.data]: one entry per generated image, with its [url]. *)
Record ImageEntry : Type := { url : option str }.
Record ImagesResponse : Type := { data : list ImageEntry }.

(** A [requests.Response]. *)
Record Response : Type :=
  { status_code : N; reason : str; response_url : str; content : bytes }.

(** [datetime.now()] *)
Record datetime : Type :=
  { year : N; month : N; day : N; hour : N; minute : N; second : N;
    microsecond : N }.

(** What a script run can raise.  [PyException text] is any [Exception],
    with [text] its [str(e)]; [RerunException] is what [st.rerun()]
    raises: a [BaseException], which [except Exception] lets through. *)
Inductive exn : Type :=
| PyException (text : str)
| RerunException.

(** The answers of everything outside the script: [inl text] is an
    [Exception] raised by the call, [inr v] its return value.
    [Image.open] reads the header only; the pixel data is loaded when the
    image is first drawn or written, and [Image_load] is what that
    raises, if anything.  [Image_encode_png] is the PNG encoder on an
    image that loads. *)
Record World : Type :=
  { OpenAI_raises : str -> option str;
    images_generate : OpenAI -> ImageRequest -> str + ImagesResponse;
    requests_get : option str -> str + Response;
    Image_open : bytes -> str + PILImage;
    Image_load : PILImage -> option str;
    Image_encode_png : PILImage -> str + bytes }.

(** [image.save(buffered, format="PNG")] followed by
    [buffered.getvalue()]: the pixel data is loaded, then encoded. *)
Definition Image_save_png (W : World) (image : PILImage) : str + bytes :=
  match Image_load W image with
  | Some text => inl text
  | None => Image_encode_png W image
  end.

(** ** Script runs *)

(** The three attributes the script keeps in [st.session_state];
    [None] is an attribute that was never assigned. *)
Record SessionState : Type :=
  { current_image : option PILImage;
    current_prompt : option str;
    current_word : option str }.

Definition empty_session : SessionState :=
  {| current_image := None; current_prompt := None; current_word := None |}.

(** What a run does that can be seen from outside, in order. *)
Inductive event : Type :=
| CallOpenAI (api_key : str)
| CallImagesGenerate (client : OpenAI) (req : ImageRequest)
| CallRequestsGet (locator : option str)
| CallImageOpen (raw : bytes)
| CallImageSave (im : PILImage)
| StButton (label : str) (disabled : bool)
| StSpinner (text : str)
| StError (text : str)
| StSuccess (text : str)
| StInfo (text : str)
| StImage (im : PILImage) (caption : str)
| StMarkdown (body : str)
| StTextArea (label value : str).

(** A run from a session state ends in a session state, with the events
    it produced and either a value or the exception that ended it.  As in
    Python, what was assigned before an exception stays assigned. *)
Record Outcome (A : Type) : Type :=
  { session : SessionState; trace : list event; result : exn + A }.

Arguments session {A} _.
Arguments trace {A} _.
Arguments result {A} _.

Definition Script (A : Type) : Type := SessionState -> Outcome A.

Definition ret {A} (a : A) : Script A :=
  fun s => {| session := s; trace := []; result := inr a |}.

Definition raise {A} (e : exn) : Script A :=
  fun s => {| session := s; trace := []; result := inl e |}.

Definition bind {A B} (m : Script A) (k : A -> Script B) : Script B :=
  fun s =>
    match m s with
    | {| session := s1; trace := t1; result := inl e |} =>
        {| session := s1; trace := t1; result := inl e |}
    | {| session := s1; trace := t1; result := inr a |} =>
        match k a s1 with
        | {| session := s2; trace := t2; result := r |} =>
            {| session := s2; trace := t1 ++ t2; result := r |}
        end
    end.

Notation "x <- m ;; k" := (bind m (fun x => k))
  (at level 61, m at next level, right associativity).
Notation "m ;; k" := (bind m (fun _ => k))
  (at level 61, right associativity).

Definition emit (ev : event) : Script unit :=
  fun s => {| session := s; trace := [ev]; result := inr tt |}.

Definition get_session : Script SessionState :=
  fun s => {| session := s; trace := []; result := inr s |}.

Definition put_session (s' : SessionState) : Script unit :=
  fun _ => {| session := s'; trace := []; result := inr tt |}.

(** [try: body  except Exception as e: handler(str(e))] *)
Definition try_except {A} (body : Script A) (handler : str -> Script A)
  : Script A :=
  fun s =>
    match body s with
    | {| session := s1; trace := t1; result := inl (PyException text) |} =>
        match handler text s1 with
        | {| session := s2; trace := t2; result := r |} =>
            {| session := s2; trace := t1 ++ t2; result := r |}
        end
    | o => o
    end.

(** A call answered by the world. *)
Definition call {A} (ev : event) (answer : str + A) : Script A :=
  emit ev ;;
  match answer with
  | inl text => raise (PyException text)
  | inr a => ret a
  end.

(** [openai.OpenAI(api_key=api_key)] *)
Definition openai_OpenAI (W : World) (api_key : str) : Script OpenAI :=
  call (CallOpenAI api_key)
       (match OpenAI_raises W api_key with
        | Some text => inl text
        | None => inr {| client_api_key := api_key |}
        end).

(** [response.raise_for_status()] of the requests library: an [HTTPError]
    for a status from 400 to 599, nothing otherwise.  [http_error] is the
    message of that error, if there is one. *)
Definition http_error (r : Response) : option str :=
  let c := status_code r in
  if (400 <=? c) && (c <? 500) then
    Some (of_int c ++ lit " Client Error: " ++ reason r
            ++ lit " for url: " ++ response_url r)
  else if (500 <=? c) && (c <? 600) then
    Some (of_int c ++ lit " Server Error: " ++ reason r
            ++ lit " for url: " ++ response_url r)
  else None.

Definition raise_for_status (r : Response) : Script unit :=
  match http_error r with
  | Some text => raise (PyException text)
  | None => ret tt
  end.

(** [seq[0]] *)
Definition first_item {A} (l : list A) : Script A :=
  match l with
  | [] => raise (PyException (lit "list index out of range"))
  | x :: _ => ret x
  end.

(** ** The pipeline (lines 57-114) *)

Definition cross_mark : str := [10060].
Definition palette : str := [127912].
Definition sparkles : str := [10024].
Definition inbox_tray : str := [128229].
Definition point_up : str := [128070].
Definition point_left : str := [128072].

(** The two headings under which an exception is shown (lines 63, 113)
    and the text of the spinner (line 92). *)
Definition api_key_error (e : str) : str :=
  cross_mark ++ lit " Error with API key: " ++ e.

Definition generating_error (e : str) : str :=
  cross_mark ++ lit " Error generating image: " ++ e.

Definition spinner_text (inspiration_word : str) : str :=
  palette ++ lit " Creating your '" ++ inspiration_word
  ++ lit "' mandala... This may take a few moments".

(** [create_openai_client(api_key)] *)
Definition create_openai_client (W : World) (api_key : str)
  : Script (option OpenAI) :=
  try_except
    (client <- openai_OpenAI W api_key ;;
     ret (Some client))
    (fun e =>
       emit (StError (api_key_error e)) ;;
       ret None).

(** The fixed arguments of the generation request (lines 93-99). *)
Definition generation_request (prompt : str) : ImageRequest :=
  {| req_model := lit "dall-e-3";
     req_prompt := prompt;
     req_size := lit "1024x1024";
     req_quality := lit "standard";
     req_n := 1 |}.

(** [generate_mandala_image(api_key, inspiration_word)] *)
Definition generate_mandala_image (W : World) (api_key inspiration_word : str)
  : Script (option PILImage * option str) :=
  try_except
    (client <- create_openai_client W api_key ;;
     match client with
     | None => ret (None, None)
     | Some client =>
         let prompt := generate_mandala_prompt inspiration_word in
         emit (StSpinner (spinner_text inspiration_word)) ;;
         response <- call (CallImagesGenerate client (generation_request prompt))
                          (images_generate W client (generation_request prompt)) ;;
         first <- first_item (data response) ;;
         let image_url := url first in
         img_response <- call (CallRequestsGet image_url)
                              (requests_get W image_url) ;;
         raise_for_status img_response ;;
         image <- call (CallImageOpen (content img_response))
                       (Image_open W (content img_response)) ;;
         ret (Some image, Some prompt)
     end)
    (fun e =>
       emit (StError (generating_error e)) ;;
       ret (None, None)).

(** ** The download link (lines 116-122) *)

(** One symbol of the standard base64 alphabet. *)
Definition b64_symbol (i : N) : char :=
  if i <? 26 then 65 + i
  else if i <? 52 then 97 + (i - 26)
  else if i <? 62 then 48 + (i - 52)
  else if i =? 62 then 43
  else 47.

(** [base64.b64encode(b).decode()] *)
Fixpoint b64encode (b : bytes) : str :=
  match b with
  | [] => []
  | [x] =>
      [b64_symbol (x / 4); b64_symbol ((x mod 4) * 16); 61; 61]
  | [x; y] =>
      [b64_symbol (x / 4); b64_symbol ((x mod 4) * 16 + y / 16);
       b64_symbol ((y mod 16) * 4); 61]
  | x :: y :: z :: rest =>
      b64_symbol (x / 4) :: b64_symbol ((x mod 4) * 16 + y / 16)
        :: b64_symbol ((y mod 16) * 4 + z / 64) :: b64_symbol (z mod 64)
        :: b64encode rest
  end.

(** The markup returned on line 122. *)
Definition download_anchor (img_str filename : str) : str :=
  lit "<a href=" ++ dq ++ lit "data:image/png;base64," ++ img_str ++ dq
  ++ lit " download=" ++ dq ++ filename ++ dq
  ++ lit " style=" ++ dq ++ lit "text-decoration: none;" ++ dq
  ++ lit "><button style=" ++ dq
  ++ lit "background: linear-gradient(45deg, #28a745, #20c997); color: white; border: none; padding: 0.75rem 2rem; font-size: 1.1rem; border-radius: 25px; cursor: pointer; transition: all 0.3s ease;"
  ++ dq ++ lit ">" ++ inbox_tray ++ lit " Download Mandala</button></a>".

(** [get_image_download_link(image, filename)] *)
Definition get_image_download_link (W : World) (image : PILImage)
  (filename : str) : Script str :=
  buffered <- call (CallImageSave image) (Image_save_png W image) ;;
  let img_str := b64encode buffered in
  ret (download_anchor img_str filename).

(** ** The page (lines 124-228) *)

(** [n] in decimal on exactly two, and on exactly four, digits. *)
Definition digits2 (n : N) : str := [48 + (n / 10) mod 10; 48 + n mod 10].
Definition digits4 (n : N) : str :=
  [48 + (n / 1000) mod 10; 48 + (n / 100) mod 10;
   48 + (n / 10) mod 10; 48 + n mod 10].

(** [t.strftime("%Y%m%d_%H%M%S")], for a year of four digits. *)
Definition strftime (t : datetime) : str :=
  digits4 (year t) ++ digits2 (month t) ++ digits2 (day t) ++ lit "_"
  ++ digits2 (hour t) ++ digits2 (minute t) ++ digits2 (second t).

(** The name under which the image is offered (line 207). *)
Definition download_filename (word : str) (now : datetime) : str :=
  lit "mandala_" ++ word ++ lit "_" ++ strftime now ++ lit ".png".

(** The image information block (lines 214-219). *)
Definition image_info (filename word : str) (image : PILImage) : str :=
  nl ++
  lit "            **Filename:** " ++ filename ++ lit "  " ++ nl ++
  lit "            **Format:** PNG  " ++ nl ++
  lit "            **Size:** " ++ of_int (fst (im_size image)) ++ lit "x"
    ++ of_int (snd (im_size image)) ++ lit " pixels  " ++ nl ++
  lit "            **Inspiration:** " ++ word ++ nl ++
  lit "            ".

(** Reading an attribute of [st.session_state] that was never assigned
    raises an [AttributeError], in Streamlit's words. *)
Definition session_attr {A} (name : str) (v : option A) : Script A :=
  match v with
  | Some a => ret a
  | None =>
      raise (PyException
               (lit "st.session_state has no attribute " ++ dq ++ name ++ dq
                ++ lit ". Did you forget to initialize it? More info: https://docs.streamlit.io/develop/concepts/architecture/session-state#initialization"))
  end.

(** [st.image(image, caption=...)]: the image is loaded to be drawn, and
    what loading raises ends the call before anything is drawn. *)
Definition st_image (W : World) (image : PILImage) (caption : str)
  : Script unit :=
  match Image_load W image with
  | Some text => raise (PyException text)
  | None => emit (StImage image caption)
  end.

(** The left column from the button on (lines 150-167).  [pressed] is
    what [st.button] returned in this run. *)
Definition can_generate (api_key inspiration_word : str) : str :=
  and_ (strip api_key) (strip inspiration_word).

Definition submit_disabled (api_key inspiration_word : str) : bool :=
  negb (truthy (can_generate api_key inspiration_word)).

(** The topic input is created with [max_chars=50] (line 147): the widget
    holds no longer value. *)
Definition max_chars : N := 50.

Definition left_column (W : World) (api_key inspiration_word : str)
  (pressed : bool) : Script unit :=
  emit (StButton (palette ++ lit " Generate Mandala")
                 (submit_disabled api_key inspiration_word)) ;;
  (if pressed then
     if truthy (can_generate api_key inspiration_word) then
       r <- generate_mandala_image W api_key (strip inspiration_word) ;;
       match fst r with
       | Some image =>
           s <- get_session ;;
           put_session {| current_image := Some image;
                          current_prompt := current_prompt s;
                          current_word := current_word s |} ;;
           s <- get_session ;;
           put_session {| current_image := current_image s;
                          current_prompt := snd r;
                          current_word := current_word s |} ;;
           s <- get_session ;;
           put_session {| current_image := current_image s;
                          current_prompt := current_prompt s;
                          current_word := Some (strip inspiration_word) |} ;;
           emit (StSuccess (sparkles ++ lit " Your '" ++ inspiration_word
                              ++ lit "' mandala is ready!")) ;;
           raise RerunException
       | None => ret tt
       end
     else ret tt
   else ret tt) ;;
  if negb (truthy (strip api_key)) || negb (truthy (strip inspiration_word))
  then emit (StInfo (point_up ++ lit " Please enter both your API key and inspiration word to generate a mandala"))
  else ret tt.

(** The right column (lines 190-228).  [now] is what [datetime.now()]
    returns in this run. *)
Definition right_column (W : World) (now : datetime) : Script unit :=
  s <- get_session ;;
  match current_image s with
  | Some image =>
      word <- session_attr (lit "current_word") (current_word s) ;;
      st_image W image (lit "Mandala inspired by: " ++ word) ;;
      let filename := download_filename word now in
      download_link <- get_image_download_link W image filename ;;
      emit (StMarkdown download_link) ;;
      emit (StMarkdown (image_info filename word image)) ;;
      match current_prompt s with
      | Some p => emit (StTextArea (lit "Prompt sent to DALL-E 3:") p)
      | None => ret tt
      end
  | None =>
      emit (StInfo (point_left ++ lit " Enter your API key and inspiration word, then click 'Generate Mandala' to create your artwork"))
  end.

(** One run of [main()]: the two text inputs hold [api_key] and
    [inspiration_word].  The headings, help texts and tips, which are
    constant [st.markdown] calls, are left out. *)
Definition main (W : World) (api_key inspiration_word : str)
  (pressed : bool) (now : datetime) : Script unit :=
  left_column W api_key inspiration_word pressed ;;
  right_column W now.

(** ** Reading a trace *)

Definition is_external (ev : event) : bool :=
  match ev with
  | CallOpenAI _ | CallImagesGenerate _ _ | CallRequestsGet _
  | CallImageOpen _ | CallImageSave _ => true
  | _ => false
  end.

(** The generation requests of a trace, and its fetches. *)
Definition generation_requests (tr : list event) : list ImageRequest :=
  flat_map (fun ev => match ev with
                      | CallImagesGenerate _ r => [r]
                      | _ => []
                      end) tr.

Definition fetches (tr : list event) : list (option str) :=
  flat_map (fun ev => match ev with
                      | CallRequestsGet u => [u]
                      | _ => []
                      end) tr.

(** The images a trace draws, and the error messages it shows. *)
Definition images_rendered (tr : list event) : list PILImage :=
  flat_map (fun ev => match ev with StImage im _ => [im] | _ => [] end) tr.

Definition errors_shown (tr : list event) : list str :=
  flat_map (fun ev => match ev with StError t => [t] | _ => [] end) tr.

(** What the user sees: the trace without the calls to the world. *)
Definition shown (tr : list event) : list event :=
  filter (fun ev => negb (is_external ev)) tr.

(** The calls of the pipeline in a trace: the client, the generation
    request, the fetch and the decoder. *)
Definition pipeline_calls (tr : list event) : list event :=
  filter (fun ev => match ev with
                    | CallOpenAI _ | CallImagesGenerate _ _
                    | CallRequestsGet _ | CallImageOpen _ => true
                    | _ => false
                    end) tr.

(** An event without the credential it may carry: the credential occurs
    in the call that builds the client and, inside the client, in the
    generation call. *)
Definition forget_credential (ev : event) : event :=
  match ev with
  | CallOpenAI _ => CallOpenAI []
  | CallImagesGenerate _ req =>
      CallImagesGenerate {| client_api_key := [] |} req
  | _ => ev
  end.


(** The [st.markdown] bodies of a trace. *)
Definition markdowns (tr : list event) : list str :=
  flat_map (fun ev => match ev with StMarkdown b => [b] | _ => [] end) tr.

(** ** The paths through the pipeline *)

(** Where an invocation can stop short: building the client, the
    generation request, taking the first entry of the response, the fetch,
    the status check, decoding. *)
Inductive stage : Type :=
| Constructing | Generating | Locating | Fetching | Checking | Decoding.

Section Paths.

Variable W : World.
Variables api_key inspiration_word : str.

Let prompt := generate_mandala_prompt inspiration_word.
Let client := {| client_api_key := api_key |}.
Let request := generation_request prompt.

(** The events up to and including the generation request. *)
Definition requested : list event :=
  [CallOpenAI api_key; StSpinner (spinner_text inspiration_word);
   CallImagesGenerate client request].

(** [pipeline_path tr st r]: an invocation produces the trace [tr] and
    returns [r]; [st] is the stage it failed at, if it failed. *)
Inductive pipeline_path
  : list event -> option stage -> option PILImage * option str -> Prop :=
| path_client_fails text :
    OpenAI_raises W api_key = Some text ->
    pipeline_path [CallOpenAI api_key; StError (api_key_error text)]
                  (Some Constructing) (None, None)
| path_generation_fails text :
    OpenAI_raises W api_key = None ->
    images_generate W client request = inl text ->
    pipeline_path (requested ++ [StError (generating_error text)])
                  (Some Generating) (None, None)
| path_no_entry :
    OpenAI_raises W api_key = None ->
    images_generate W client request = inr {| data := [] |} ->
    pipeline_path
      (requested
         ++ [StError (generating_error (lit "list index out of range"))])
      (Some Locating) (None, None)
| path_fetch_fails first rest text :
    OpenAI_raises W api_key = None ->
    images_generate W client request = inr {| data := first :: rest |} ->
    requests_get W (url first) = inl text ->
    pipeline_path
      (requested ++ [CallRequestsGet (url first);
                     StError (generating_error text)])
      (Some Fetching) (None, None)
| path_bad_status first rest r text :
    OpenAI_raises W api_key = None ->
    images_generate W client request = inr {| data := first :: rest |} ->
    requests_get W (url first) = inr r ->
    http_error r = Some text ->
    pipeline_path
      (requested ++ [CallRequestsGet (url first);
                     StError (generating_error text)])
      (Some Checking) (None, None)
| path_decode_fails first rest r text :
    OpenAI_raises W api_key = None ->
    images_generate W client request = inr {| data := first :: rest |} ->
    requests_get W (url first) = inr r ->
    http_error r = None ->
    Image_open W (content r) = inl text ->
    pipeline_path
      (requested ++ [CallRequestsGet (url first);
                     CallImageOpen (content r);
                     StError (generating_error text)])
      (Some Decoding) (None, None)
| path_success first rest r image :
    OpenAI_raises W api_key = None ->
    images_generate W client request = inr {| data := first :: rest |} ->
    requests_get W (url first) = inr r ->
    http_error r = None ->
    Image_open W (content r) = inr image ->
    pipeline_path
      (requested ++ [CallRequestsGet (url first);
                     CallImageOpen (content r)])
      None (Some image, Some prompt).

End Paths.

(** ** The events of the page *)

Definition button_event (api_key word : str) : event :=
  StButton (palette ++ lit " Generate Mandala") (submit_disabled api_key word).

Definition success_event (word : str) : event :=
  StSuccess (sparkles ++ lit " Your '" ++ word ++ lit "' mandala is ready!").

Definition hint_event : event :=
  StInfo (point_up ++ lit " Please enter both your API key and inspiration word to generate a mandala").

Definition placeholder_event : event :=
  StInfo (point_left ++ lit " Enter your API key and inspiration word, then click 'Generate Mandala' to create your artwork").

(** What the right column draws for a stored image. *)
Definition stored_view (image : PILImage) (word : str) (now : datetime)
  (png : bytes) (prompt : option str) : list event :=
  [StImage image (lit "Mandala inspired by: " ++ word);
   CallImageSave image;
   StMarkdown (download_anchor (b64encode png) (download_filename word now));
   StMarkdown (image_info (download_filename word now) word image)]
  ++ match prompt with
     | Some p => [StTextArea (lit "Prompt sent to DALL-E 3:") p]
     | None => []
     end.

(** ** Sample worlds and inputs *)

Definition sample_locator : str := lit "https://images.example/mandala.png".

Definition sample_png : bytes := [137; 80; 78; 71; 13; 10; 26; 10].

Definition sample_image : PILImage :=
  {| im_size := (1024, 1024); im_raster := [0; 255; 255; 0] |}.

Definition earlier_image : PILImage :=
  {| im_size := (1024, 1024); im_raster := [255; 0; 0; 255] |}.

Definition fetched (status : N) (why : str) : Response :=
  {| status_code := status; reason := why; response_url := sample_locator;
     content := sample_png |}.

(** Every call succeeds: the fetch answers 200 with a 1024x1024 image. *)
Definition world_ok : World :=
  {| OpenAI_raises := fun _ => None;
     images_generate := fun _ _ =>
       inr {| data := [{| url := Some sample_locator |}] |};
     requests_get := fun _ => inr (fetched 200 (lit "OK"));
     Image_open := fun _ => inr sample_image;
     Image_load := fun _ => None;
     Image_encode_png := fun _ => inr sample_png |}.

(** The fetch answers with the given status; the body still decodes. *)
Definition world_status (status : N) (why : str) : World :=
  {| OpenAI_raises := fun _ => None;
     images_generate := fun _ _ =>
       inr {| data := [{| url := Some sample_locator |}] |};
     requests_get := fun _ => inr (fetched status why);
     Image_open := fun _ => inr sample_image;
     Image_load := fun _ => None;
     Image_encode_png := fun _ => inr sample_png |}.

(** The client cannot be built. *)
Definition world_no_client : World :=
  {| OpenAI_raises := fun _ => Some (lit "client setup failed");
     images_generate := fun _ _ =>
       inr {| data := [{| url := Some sample_locator |}] |};
     requests_get := fun _ => inr (fetched 200 (lit "OK"));
     Image_open := fun _ => inr sample_image;
     Image_load := fun _ => None;
     Image_encode_png := fun _ => inr sample_png |}.

(** The fetched bytes are not an image. *)
Definition world_undecodable : World :=
  {| OpenAI_raises := fun _ => None;
     images_generate := fun _ _ =>
       inr {| data := [{| url := Some sample_locator |}] |};
     requests_get := fun _ => inr (fetched 200 (lit "OK"));
     Image_open := fun _ => inl (lit "cannot identify image file");
     Image_load := fun _ => None;
     Image_encode_png := fun _ => inr sample_png |}.

(** The service rejects the key and quotes it in its message. *)
Definition world_quoting_key : World :=
  {| OpenAI_raises := fun _ => None;
     images_generate := fun client _ =>
       inl (lit "Incorrect API key provided: " ++ client_api_key client);
     requests_get := fun _ => inr (fetched 200 (lit "OK"));
     Image_open := fun _ => inr sample_image;
     Image_load := fun _ => None;
     Image_encode_png := fun _ => inr sample_png |}.

Definition sample_key : str := lit "valid-token".

Definition sample_now : datetime :=
  {| year := 2024; month := 3; day := 9; hour := 7; minute := 5;
     second := 1; microsecond := 250000 |}.

Definition one_second_later : datetime :=
  {| year := 2024; month := 3; day := 9; hour := 7; minute := 5;
     second := 2; microsecond := 250000 |}.

(** A session that holds the result of an earlier generation. *)
Definition earlier_session : SessionState :=
  {| current_image := Some earlier_image;
     current_prompt := Some (generate_mandala_prompt (lit "love"));
     current_word := Some (lit "love") |}.

(** ** A session: one script run after another *)

(** What one run of the script is given: the world that answers it, the
    values of the two inputs, what the button returns and the clock. *)
Record run_input : Type :=
  { run_world : World; run_api_key : str; run_topic : str;
    run_pressed : bool; run_now : datetime }.

Definition run (i : run_input) : Script unit :=
  main (run_world i) (run_api_key i) (run_topic i) (run_pressed i)
       (run_now i).

(** Streamlit runs the script again at every interaction and keeps
    [st.session_state] from one run to the next. *)
Definition session_after (inputs : list run_input) (s : SessionState)
  : SessionState :=
  fold_left (fun s i => session (run i s)) inputs s.

(** The three attributes are absent together or present together, and
    then the prompt is the prompt of the word, which is trimmed and not
    empty. *)
Definition well_formed (s : SessionState) : Prop :=
  match current_image s with
  | None => current_prompt s = None /\ current_word s = None
  | Some _ =>
      exists word,
        current_word s = Some word /\
        current_prompt s = Some (generate_mandala_prompt word) /\
        strip word = word /\ word <> []
  end.

(** The kinds of call of the pipeline, in a trace. *)
Inductive call_kind : Type :=
| ClientCall | GenerationCall | FetchCall | DecodeCall.

Definition call_kinds (tr : list event) : list call_kind :=
  flat_map (fun ev => match ev with
                      | CallOpenAI _ => [ClientCall]
                      | CallImagesGenerate _ _ => [GenerationCall]
                      | CallRequestsGet _ => [FetchCall]
                      | CallImageOpen _ => [DecodeCall]
                      | _ => []
                      end) tr.

(** Two clock readings within the same second. *)
Definition same_second (t1 t2 : datetime) : Prop :=
  year t1 = year t2 /\ month t1 = month t2 /\ day t1 = day t2 /\
  hour t1 = hour t2 /\ minute t1 = minute t2 /\ second t1 = second t2.

(** What [datetime.now()] can return: a year of four digits, and fields
    in their calendar ranges. *)
Definition calendar (t : datetime) : Prop :=
  1000 <= year t <= 9999 /\ 1 <= month t <= 12 /\ 1 <= day t <= 31 /\
  hour t <= 23 /\ minute t <= 59 /\ second t <= 59.

(** The stored image cannot be written as PNG. *)
Definition world_no_encoder : World :=
  {| OpenAI_raises := fun _ => None;
     images_generate := fun _ _ =>
       inr {| data := [{| url := Some sample_locator |}] |};
     requests_get := fun _ => inr (fetched 200 (lit "OK"));
     Image_open := fun _ => inr sample_image;
     Image_load := fun _ => None;
     Image_encode_png := fun _ =>
       inl (lit "cannot write mode CMYK as PNG") |}.


(** ** Reading the download link back *)

(** What the markup of line 122 starts with, up to the payload. *)
Definition data_uri_prefix : str :=
  lit "<a href=" ++ dq ++ lit "data:image/png;base64,".

(** The text up to the next double quote. *)
Fixpoint until_quote (s : str) : str :=
  match s with
  | [] => []
  | c :: t => if c =? 34 then [] else c :: until_quote t
  end.

(** The payload of the [href] attribute of the markup: what follows the
    prefix, up to the closing quote of the attribute. *)
Definition link_payload (markup : str) : str :=
  until_quote (skipn (List.length data_uri_prefix) markup).

(** Modelled from the spec: the PNG encoder and decoder of the imaging
    library, which the script only calls.  The spec has the encoding be
    "a standard lossless raster encoding": what the decoder reads back
    from the bytes the encoder wrote for [image] is a bitmap with the
    pixel dimensions of [image]. *)
Definition keeps_dimensions (W : World) (image : PILImage) : Prop :=
  forall png,
    Image_encode_png W image = inr png ->
    exists decoded,
      Image_open W png = inr decoded /\ im_size decoded = im_size image.

(** ** Reading base64 back *)

(** The characters of base64 text: letters, digits, [+], [/] and the
    padding [=]. *)
Definition base64_char (c : char) : bool :=
  ((65 <=? c) && (c <=? 90)) || ((97 <=? c) && (c <=? 122))
  || ((48 <=? c) && (c <=? 57)) || (c =? 43) || (c =? 47) || (c =? 61).

(** The inverse of [b64_symbol] and the decoding of base64 text; they
    serve to show that [b64encode] loses nothing. *)
Definition b64_value (c : char) : N :=
  if (65 <=? c) && (c <=? 90) then c - 65
  else if (97 <=? c) && (c <=? 122) then c - 71
  else if (48 <=? c) && (c <=? 57) then c + 4
  else if c =? 43 then 62
  else 63.

Fixpoint b64decode (s : str) : bytes :=
  match s with
  | a :: b :: c :: d :: rest =>
      let x := b64_value a * 4 + b64_value b / 16 in
      let y := (b64_value b mod 16) * 16 + b64_value c / 4 in
      let z := (b64_value c mod 4) * 64 + b64_value d in
      if c =? 61 then [x]
      else if d =? 61 then [x; y]
      else x :: y :: z :: b64decode rest
  | _ => []
  end.

(** * Properties *)

#[local] Arguments lit : simpl never.
#[local] Arguments of_int : simpl never.
#[local] Arguments strip : simpl never.
#[local] Arguments generate_mandala_prompt : simpl never.
#[local] Arguments generation_request : simpl never.
#[local] Arguments spinner_text : simpl never.
#[local] Arguments api_key_error : simpl never.
#[local] Arguments generating_error : simpl never.
#[local] Arguments download_anchor : simpl never.
#[local] Arguments download_filename : simpl never.
#[local] Arguments image_info : simpl never.
#[local] Arguments http_error : simpl never.
#[local] Arguments b64encode : simpl never.
#[local] Arguments Image_save_png : simpl never.

(** ** Strings *)

Lemma lstrip_nil_iff (s : str) : lstrip s = [] <-> blank s.
Proof.
  unfold blank. induction s as [|c t IH]; simpl.
  - split; [constructor | reflexivity].
  - destruct (isspace c) eqn:Hc.
    + rewrite IH. split; intros H.
      * constructor; assumption.
      * inversion H; assumption.
    + split; [discriminate |].
      intros H. inversion H; congruence.
Qed.

Lemma lstrip_head (s : str) c t : lstrip s = c :: t -> isspace c = false.
Proof.
  induction s as [|x u IH]; simpl; [discriminate |].
  destruct (isspace x) eqn:Hx; [exact IH |].
  intros H. injection H as -> _. exact Hx.
Qed.

Lemma blank_rev (s : str) : blank (rev s) <-> blank s.
Proof.
  unfold blank. rewrite !Forall_forall.
  split; intros H c Hc; apply H; [apply in_rev in Hc | apply in_rev];
    rewrite ?rev_involutive in *; assumption.
Qed.

(** [s.strip()] is empty exactly when [s] is empty or white space only. *)
Lemma strip_nil_iff (s : str) : strip s = [] <-> blank s.
Proof.
  unfold strip, rstrip. split.
  - intros H.
    assert (Hb : blank (lstrip s)).
    { apply blank_rev, lstrip_nil_iff.
      rewrite <- (rev_involutive (lstrip (rev (lstrip s)))), H.
      reflexivity. }
    apply lstrip_nil_iff.
    destruct (lstrip s) as [|c t] eqn:E; [reflexivity |].
    apply lstrip_head in E. inversion Hb; congruence.
  - intros H. apply lstrip_nil_iff in H. rewrite H. reflexivity.
Qed.

Lemma truthy_false_iff (s : str) : truthy s = false <-> s = [].
Proof. destruct s; simpl; split; congruence. Qed.

Lemma truthy_and_ (a b : str) : truthy (and_ a b) = truthy a && truthy b.
Proof. unfold and_. destruct (truthy a) eqn:E; simpl; auto. Qed.

Lemma occurs_in_refl (a : str) : occurs_in a a.
Proof. exists [], []. simpl. now rewrite app_nil_r. Qed.

Lemma occurs_in_app_l (a b c : str) : occurs_in a b -> occurs_in a (b ++ c).
Proof.
  intros (pre & post & ->). exists pre, (post ++ c).
  now rewrite <- !app_assoc.
Qed.

Lemma occurs_in_app_r (a b c : str) : occurs_in a c -> occurs_in a (b ++ c).
Proof.
  intros (pre & post & ->). exists (b ++ pre), post.
  now rewrite <- !app_assoc.
Qed.

Lemma startswith_sound (a b : str) :
  startswith a b = true -> exists post, b = a ++ post.
Proof.
  revert b. induction a as [|x a IH]; intros b H.
  - exists b. reflexivity.
  - destruct b as [|y b]; [discriminate |]. simpl in H.
    apply andb_true_iff in H as [Hxy Hab].
    apply N.eqb_eq in Hxy as ->.
    destruct (IH _ Hab) as [post ->]. exists post. reflexivity.
Qed.

(** The test [a in b] finds only real occurrences. *)
Lemma contains_sound (a b : str) : contains a b = true -> occurs_in a b.
Proof.
  induction b as [|y b IH]; intros H.
  - simpl in H. rewrite orb_false_r in H.
    apply startswith_sound in H as [post ->]. exists [], post. reflexivity.
  - cbn [contains] in H. apply orb_true_iff in H as [H | H].
    + apply startswith_sound in H as [post ->]. exists [], post. reflexivity.
    + apply (occurs_in_app_r _ [y]). auto.
Qed.

(** ** The pipeline follows one of its paths *)

Ltac run_script :=
  unfold try_except, bind, call, emit, ret, raise, get_session, put_session;
  cbn.

(** Every invocation follows exactly one of the paths of
    [pipeline_path], and leaves the session state as it found it. *)
Lemma generate_mandala_image_path (W : World) (api_key word : str)
  (s : SessionState) :
  exists tr st r,
    pipeline_path W api_key word tr st r /\
    generate_mandala_image W api_key word s
    = {| session := s; trace := tr; result := inr r |}.
Proof.
  unfold generate_mandala_image, create_openai_client, openai_OpenAI,
    first_item, raise_for_status.
  destruct (OpenAI_raises W api_key) as [t|] eqn:Hc.
  { run_script. do 3 eexists. split; [|reflexivity].
    apply path_client_fails; assumption. }
  destruct (images_generate W {| client_api_key := api_key |}
              (generation_request (generate_mandala_prompt word)))
    as [t|[[|first rest]]] eqn:Hg.
  { run_script. rewrite Hg. cbn. do 3 eexists. split; [|reflexivity].
    apply path_generation_fails; assumption. }
  { run_script. rewrite Hg. cbn. do 3 eexists. split; [|reflexivity].
    apply path_no_entry; assumption. }
  destruct (requests_get W (url first)) as [t|r] eqn:Hf.
  { run_script. rewrite Hg. cbn. rewrite Hf. cbn.
    do 3 eexists. split; [|reflexivity].
    eapply path_fetch_fails; eassumption. }
  destruct (http_error r) as [t|] eqn:Hs.
  { run_script. rewrite Hg. cbn. rewrite Hf. cbn. rewrite Hs. cbn.
    do 3 eexists. split; [|reflexivity].
    eapply path_bad_status; eassumption. }
  destruct (Image_open W (content r)) as [t|image] eqn:Hd.
  { run_script. rewrite Hg. cbn. rewrite Hf. cbn. rewrite Hs. cbn.
    rewrite Hd. cbn. do 3 eexists. split; [|reflexivity].
    eapply path_decode_fails; eassumption. }
  run_script. rewrite Hg. cbn. rewrite Hf. cbn. rewrite Hs. cbn.
  rewrite Hd. cbn. do 3 eexists. split; [|reflexivity].
  eapply path_success; eassumption.
Qed.

#[local] Arguments generate_mandala_image : simpl never.
#[local] Arguments get_image_download_link : simpl never.

(** ** The page, run by run *)

Lemma can_generate_truthy (api_key word : str) :
  truthy (can_generate api_key word) = true ->
  truthy (strip api_key) = true /\ truthy (strip word) = true.
Proof.
  unfold can_generate. rewrite truthy_and_. apply andb_true_iff.
Qed.

(** A submit whose invocation returns an image: the three attributes are
    assigned and the run ends in [st.rerun()]. *)
Lemma left_column_success (W : World) (api_key word : str)
  (s : SessionState) tr image prompt :
  truthy (can_generate api_key word) = true ->
  generate_mandala_image W api_key (strip word) s
  = {| session := s; trace := tr; result := inr (Some image, prompt) |} ->
  left_column W api_key word true s
  = {| session := {| current_image := Some image;
                     current_prompt := prompt;
                     current_word := Some (strip word) |};
       trace := button_event api_key word :: tr ++ [success_event word];
       result := inl RerunException |}.
Proof.
  intros Hc Hg. unfold left_column. rewrite Hc. run_script.
  rewrite Hg. cbn. reflexivity.
Qed.

(** A submit whose invocation returns no image: nothing is assigned. *)
Lemma left_column_failure (W : World) (api_key word : str)
  (s : SessionState) tr prompt :
  truthy (can_generate api_key word) = true ->
  generate_mandala_image W api_key (strip word) s
  = {| session := s; trace := tr; result := inr (None, prompt) |} ->
  left_column W api_key word true s
  = {| session := s; trace := button_event api_key word :: tr;
       result := inr tt |}.
Proof.
  intros Hc Hg. unfold left_column. rewrite Hc.
  destruct (can_generate_truthy _ _ Hc) as [Hk Hw]. rewrite Hk, Hw.
  run_script. rewrite Hg. cbn. rewrite ?app_nil_r. reflexivity.
Qed.

(** No submit, or a submit that the guard of line 154 stops: the pipeline
    is not invoked. *)
Lemma left_column_idle (W : World) (api_key word : str) (pressed : bool)
  (s : SessionState) :
  pressed && truthy (can_generate api_key word) = false ->
  left_column W api_key word pressed s
  = {| session := s;
       trace := button_event api_key word
                  :: (if negb (truthy (strip api_key))
                         || negb (truthy (strip word))
                      then [hint_event] else []);
       result := inr tt |}.
Proof.
  intros H. unfold left_column.
  destruct (negb (truthy (strip api_key)) || negb (truthy (strip word)));
    destruct pressed; cbn in H; try rewrite H; run_script; reflexivity.
Qed.

(** The right column, case by case. *)
Lemma right_column_run (W : World) (now : datetime) (s : SessionState) :
  right_column W now s
  = match current_image s with
    | None =>
        {| session := s; trace := [placeholder_event]; result := inr tt |}
    | Some image =>
        match current_word s with
        | None => session_attr (lit "current_word") None s
        | Some word =>
            match Image_load W image with
            | Some text =>
                {| session := s; trace := [];
                   result := inl (PyException text) |}
            | None =>
                match Image_encode_png W image with
                | inl text =>
                    {| session := s;
                       trace := [StImage image
                                   (lit "Mandala inspired by: " ++ word);
                                 CallImageSave image];
                       result := inl (PyException text) |}
                | inr png =>
                    {| session := s;
                       trace := stored_view image word now png
                                  (current_prompt s);
                       result := inr tt |}
                end
            end
        end
    end.
Proof.
  unfold right_column, get_image_download_link, session_attr, st_image,
    Image_save_png.
  run_script.
  destruct (current_image s) as [image|]; [| reflexivity].
  destruct (current_word s) as [word|]; [| reflexivity]. cbn.
  destruct (Image_load W image) as [text|]; [reflexivity |]. cbn.
  destruct (Image_encode_png W image) as [text|png]; [reflexivity |]. cbn.
  destruct (current_prompt s); reflexivity.
Qed.

Lemma right_column_empty (W : World) (now : datetime) (s : SessionState) :
  current_image s = None ->
  right_column W now s
  = {| session := s; trace := [placeholder_event]; result := inr tt |}.
Proof. intros H. rewrite right_column_run, H. reflexivity. Qed.

(** An image that can be written as PNG is one whose pixel data loads. *)
Lemma saved_image_loads (W : World) (image : PILImage) (png : bytes) :
  Image_save_png W image = inr png ->
  Image_load W image = None /\ Image_encode_png W image = inr png.
Proof.
  unfold Image_save_png. destruct (Image_load W image);
    [discriminate | auto].
Qed.

Lemma right_column_stored (W : World) (now : datetime) (s : SessionState)
  image word png :
  current_image s = Some image ->
  current_word s = Some word ->
  Image_save_png W image = inr png ->
  right_column W now s
  = {| session := s;
       trace := stored_view image word now png (current_prompt s);
       result := inr tt |}.
Proof.
  intros Hi Hw Hp. destruct (saved_image_loads _ _ _ Hp) as [Hl He].
  rewrite right_column_run, Hi, Hw, Hl, He. reflexivity.
Qed.

(** The right column never assigns an attribute, and the only image it
    can draw is the stored one. *)
Lemma right_column_frame (W : World) (now : datetime) (s : SessionState) :
  session (right_column W now s) = s /\
  pipeline_calls (trace (right_column W now s)) = [] /\
  errors_shown (trace (right_column W now s)) = [] /\
  forall im, In im (images_rendered (trace (right_column W now s))) ->
             current_image s = Some im.
Proof.
  rewrite right_column_run.
  destruct (current_image s) as [image|]; cbn.
  2: { repeat split; auto. intros im []. }
  destruct (current_word s) as [word|]; cbn.
  2: { repeat split; auto. intros im []. }
  destruct (Image_load W image) as [t|]; cbn.
  1: { repeat split; auto. intros im []. }
  destruct (Image_encode_png W image) as [t|png]; cbn.
  - repeat split; auto. intros im [<-|[]]. reflexivity.
  - destruct (current_prompt s); cbn; repeat split; auto;
      intros im [<-|[]]; reflexivity.
Qed.

Lemma main_stops (W : World) (api_key word : str) (pressed : bool)
  (now : datetime) (s s1 : SessionState) t1 e :
  left_column W api_key word pressed s
  = {| session := s1; trace := t1; result := inl e |} ->
  main W api_key word pressed now s
  = {| session := s1; trace := t1; result := inl e |}.
Proof. intros H. unfold main, bind. rewrite H. reflexivity. Qed.

Lemma main_continues (W : World) (api_key word : str) (pressed : bool)
  (now : datetime) (s s1 : SessionState) t1 :
  left_column W api_key word pressed s
  = {| session := s1; trace := t1; result := inr tt |} ->
  main W api_key word pressed now s
  = {| session := session (right_column W now s1);
       trace := t1 ++ trace (right_column W now s1);
       result := result (right_column W now s1) |}.
Proof.
  intros H. unfold main, bind. rewrite H.
  destruct (right_column W now s1). reflexivity.
Qed.

(** ** Reading the trace of a path *)

Section PathFacts.

Variable W : World.
Variables api_key word : str.
Variable tr : list event.
Variable st : option stage.
Variable r : option PILImage * option str.
Hypothesis path : pipeline_path W api_key word tr st r.

(** A path returns an image and the prompt, or neither. *)
Lemma path_result :
  match st with
  | None => exists image,
      r = (Some image, Some (generate_mandala_prompt word))
  | Some _ => r = (None, None)
  end.
Proof. destruct path; eauto. Qed.

(** One generation request, unless the client could not be built. *)
Lemma path_generation_requests :
  generation_requests tr
  = match st with
    | Some Constructing => []
    | _ => [generation_request (generate_mandala_prompt word)]
    end.
Proof. destruct path; reflexivity. Qed.

(** One error message on a failing path, none on success. *)
Lemma path_errors_shown :
  match st with
  | None => errors_shown tr = []
  | Some Constructing =>
      exists text, OpenAI_raises W api_key = Some text /\
                   errors_shown tr = [api_key_error text]
  | Some _ => exists text, errors_shown tr = [generating_error text]
  end.
Proof. destruct path; cbn; eauto. Qed.


End PathFacts.

(** The prompt holds the word between its fixed parts. *)
Lemma occurs_in_prompt_body (marker word : str) :
  occurs_in marker prompt_body ->
  occurs_in marker (generate_mandala_prompt word).
Proof.
  intros H. unfold generate_mandala_prompt.
  apply occurs_in_app_r, occurs_in_app_r, occurs_in_app_l, H.
Qed.

(** ** The prompt *)

(** C3. For every topic, [generate_mandala_prompt] (a function: total,
    deterministic and without effect) returns a prompt that contains the
    topic verbatim and the fixed style markers: "symmetrical",
    "black and white" and "sacred geometry". *)
Theorem prompt_contains_topic_and_markers (topic : str) :
  occurs_in topic (generate_mandala_prompt topic) /\
  occurs_in (lit "symmetrical") (generate_mandala_prompt topic) /\
  occurs_in (lit "black and white") (generate_mandala_prompt topic) /\
  occurs_in (lit "sacred geometry") (generate_mandala_prompt topic).
Proof.
  split; [| repeat split].
  - unfold generate_mandala_prompt.
    apply occurs_in_app_r, occurs_in_app_l, occurs_in_refl.
  - apply occurs_in_prompt_body, contains_sound. vm_compute. reflexivity.
  - apply occurs_in_prompt_body, contains_sound. vm_compute. reflexivity.
  - apply occurs_in_prompt_body, contains_sound. vm_compute. reflexivity.
Qed.

(** ** The result of an invocation *)

(** C10. An invocation returns an image together with the prompt, or
    neither; the prompt it returns is [generate_mandala_prompt] of the
    word it was given, and it is the prompt of the one generation request
    the invocation sent. *)
Theorem pipeline_returns_both_or_neither (W : World)
  (api_key inspiration_word : str) (s : SessionState) :
  let o := generate_mandala_image W api_key inspiration_word s in
  result o = inr (None, None) \/
  exists image,
    result o = inr (Some image,
                    Some (generate_mandala_prompt inspiration_word)) /\
    map req_prompt (generation_requests (trace o))
    = [generate_mandala_prompt inspiration_word].
Proof.
  destruct (generate_mandala_image_path W api_key inspiration_word s)
    as (tr & st & r & Hp & ->).
  cbv zeta. cbn [trace result].
  pose proof (path_result _ _ _ _ _ _ Hp) as Hr.
  pose proof (path_generation_requests _ _ _ _ _ _ Hp) as Hq.
  destruct st as [st|].
  - left. now rewrite Hr.
  - right. destruct Hr as [image ->]. exists image. split; [reflexivity|].
    rewrite Hq. reflexivity.
Qed.

(** ** Submit and the session state *)

Lemma images_rendered_app (t1 t2 : list event) :
  images_rendered (t1 ++ t2) = images_rendered t1 ++ images_rendered t2.
Proof. apply flat_map_app. Qed.

Lemma pipeline_calls_app (t1 t2 : list event) :
  pipeline_calls (t1 ++ t2) = pipeline_calls t1 ++ pipeline_calls t2.
Proof. apply filter_app. Qed.

Lemma submit_enabled_truthy (api_key topic : str) :
  submit_disabled api_key topic = false ->
  truthy (can_generate api_key topic) = true.
Proof. unfold submit_disabled. now destruct (truthy _). Qed.

(** C1. A submit (the button is enabled, so credential and topic are
    non-empty, and it was pressed) whose generation call returns an image
    leaves a session state that holds exactly that image, the trimmed
    topic as source word, and as prompt [generate_mandala_prompt] of the
    trimmed topic. *)
Theorem submit_success_stores_result (W : World) (api_key topic : str)
  (now : datetime) (s : SessionState) (image : PILImage)
  (prompt : option str) :
  submit_disabled api_key topic = false ->
  result (generate_mandala_image W api_key (strip topic) s)
  = inr (Some image, prompt) ->
  session (main W api_key topic true now s)
  = {| current_image := Some image;
       current_prompt := Some (generate_mandala_prompt (strip topic));
       current_word := Some (strip topic) |}.
Proof.
  intros He Hr. apply submit_enabled_truthy in He.
  destruct (generate_mandala_image_path W api_key (strip topic) s)
    as (tr & st & r & Hp & Hg).
  rewrite Hg in Hr. cbn in Hr. injection Hr as ->.
  pose proof (path_result _ _ _ _ _ _ Hp) as Hres.
  destruct st as [st|]; [discriminate |].
  destruct Hres as [image' Hres]. injection Hres as <- ->.
  rewrite (main_stops _ _ _ _ _ _ _ _ _
             (left_column_success _ _ _ _ _ _ _ He Hg)).
  reflexivity.
Qed.

Lemma submit_success_stores_result_witness :
  submit_disabled sample_key (lit " peace ") = false /\
  session (main world_ok sample_key (lit " peace ") true sample_now
             empty_session)
  = {| current_image := Some sample_image;
       current_prompt := Some (generate_mandala_prompt (lit "peace"));
       current_word := Some (lit "peace") |}.
Proof.
  split; [reflexivity |].
  exact (submit_success_stores_result world_ok sample_key (lit " peace ")
           sample_now empty_session sample_image
           (Some (generate_mandala_prompt (lit "peace")))
           eq_refl eq_refl).
Defined.




(** ** The submit trigger *)

Lemma truthy_strip_false_iff (s : str) :
  truthy (strip s) = false <-> blank s.
Proof. rewrite truthy_false_iff. apply strip_nil_iff. Qed.

Lemma submit_disabled_blank_fields (api_key topic : str) :
  (submit_disabled api_key topic = true <-> blank api_key \/ blank topic) /\
  (submit_disabled api_key topic = true ->
   forall pressed, pressed && truthy (can_generate api_key topic) = false).
Proof.
  split.
  - unfold submit_disabled, can_generate. rewrite truthy_and_.
    rewrite negb_true_iff, andb_false_iff, !truthy_strip_false_iff.
    reflexivity.
  - intros Hd pressed. unfold submit_disabled in Hd.
    apply negb_true_iff in Hd. rewrite Hd. apply andb_false_r.
Qed.

Lemma main_starts_with_button (W : World) (api_key topic : str)
  (pressed : bool) (now : datetime) (s : SessionState) :
  exists rest,
    trace (main W api_key topic pressed now s)
    = button_event api_key topic :: rest.
Proof.
  destruct (pressed && truthy (can_generate api_key topic)) eqn:E.
  - apply andb_true_iff in E as [-> E].
    destruct (generate_mandala_image_path W api_key (strip topic) s)
      as (tr & st & [[image|] prompt] & Hp & Hg).
    + rewrite (main_stops _ _ _ _ _ _ _ _ _
                 (left_column_success _ _ _ _ _ _ _ E Hg)).
      cbn [trace]. eauto.
    + rewrite (main_continues _ _ _ _ _ _ _ _
                 (left_column_failure _ _ _ _ _ _ E Hg)).
      cbn [trace]. rewrite <- app_comm_cons. eauto.
  - rewrite (main_continues _ _ _ _ _ _ _ _
               (left_column_idle W _ _ _ s E)).
    cbn [trace]. rewrite <- app_comm_cons. eauto.
Qed.

(** C4. For every pair of values the two inputs can hold (the topic
    input holds at most [max_chars] = 50 characters), the submit button
    is drawn disabled exactly when the credential is empty or white
    space only, or the topic is empty or white space only, or the topic
    exceeds 50 characters; and a run whose button is disabled issues no
    call of the pipeline, so no network call, whatever the button
    returns. *)
Theorem submit_trigger_disabled_iff (W : World) (api_key topic : str)
  (pressed : bool) (now : datetime) (s : SessionState) :
  len topic <= max_chars ->
  let o := main W api_key topic pressed now s in
  (exists rest,
      trace o = StButton (palette ++ lit " Generate Mandala")
                  (submit_disabled api_key topic) :: rest) /\
  (submit_disabled api_key topic = true <->
   blank api_key \/ blank topic \/ 50 < len topic) /\
  (submit_disabled api_key topic = true -> pipeline_calls (trace o) = []).
Proof.
  intros Hlen. cbv zeta. split; [apply main_starts_with_button |]. split.
  - rewrite (proj1 (submit_disabled_blank_fields api_key topic)).
    unfold max_chars in Hlen. split; [tauto |].
    intros [H | [H | H]]; auto. lia.
  - intros Hd.
    pose proof (proj2 (submit_disabled_blank_fields api_key topic) Hd pressed)
      as Hidle.
    rewrite (main_continues _ _ _ _ _ _ _ _
               (left_column_idle W _ _ _ s Hidle)).
    cbn [trace]. rewrite pipeline_calls_app.
    destruct (right_column_frame W now s) as (_ & -> & _).
    destruct (negb (truthy (strip api_key)) || negb (truthy (strip topic)));
      reflexivity.
Qed.

Lemma submit_trigger_disabled_iff_witness :
  len (lit "peace") <= max_chars /\
  submit_disabled [] (lit "peace") = true /\
  pipeline_calls
    (trace (main world_ok [] (lit "peace") true sample_now empty_session))
  = [].
Proof.
  assert (Hlen : len (lit "peace") <= max_chars) by (vm_compute; discriminate).
  split; [exact Hlen |]. split; [reflexivity |].
  exact (proj2 (proj2 (submit_trigger_disabled_iff world_ok []
                         (lit "peace") true sample_now empty_session Hlen))
           eq_refl).
Defined.

(** ** The download name *)

Lemma main_render_only (W : World) (api_key topic : str) (now : datetime)
  (s : SessionState) :
  markdowns (trace (main W api_key topic false now s))
  = markdowns (trace (right_column W now s)).
Proof.
  rewrite (main_continues _ _ _ _ _ _ _ _
             (left_column_idle W api_key topic false s eq_refl)).
  cbn [trace].
  destruct (negb (truthy (strip api_key)) || negb (truthy (strip topic)));
    reflexivity.
Qed.

(** C5, as the code has it. For a stored result, a run that draws the
    page offers the image stored in the session, encoded, under the name
    mandala_{word}_{timestamp}.png, where the word is the stored source
    word and the timestamp is the time of that run, read from the clock
    and formatted as %Y%m%d_%H%M%S: fifteen characters, to the second.
    The name is fixed by the session state and the clock of the run
    together. *)
Theorem download_name_from_word_and_clock (W : World) (api_key topic : str)
  (now : datetime) (s : SessionState) (image : PILImage) (word : str)
  (png : bytes) :
  current_image s = Some image ->
  current_word s = Some word ->
  Image_save_png W image = inr png ->
  let filename := lit "mandala_" ++ word ++ lit "_" ++ strftime now
                      ++ lit ".png" in
  markdowns (trace (main W api_key topic false now s))
  = [download_anchor (b64encode png) filename;
     image_info filename word image] /\
  List.length (strftime now) = 15%nat /\
  forall us,
    strftime {| year := year now; month := month now; day := day now;
                hour := hour now; minute := minute now;
                second := second now; microsecond := us |}
    = strftime now.
Proof.
  intros Hi Hw Hp. cbv zeta. repeat split.
  rewrite main_render_only, (right_column_stored _ _ _ _ _ _ Hi Hw Hp).
  unfold stored_view. destruct (current_prompt s); reflexivity.
Qed.

Lemma download_name_from_word_and_clock_witness :
  markdowns
    (trace (main world_ok sample_key (lit "love") false sample_now
              earlier_session))
  = [download_anchor (b64encode sample_png)
       (lit "mandala_love_20240309_070501.png");
     image_info (lit "mandala_love_20240309_070501.png") (lit "love")
       earlier_image].
Proof.
  exact (proj1 (download_name_from_word_and_clock world_ok sample_key
                  (lit "love") sample_now earlier_session earlier_image
                  (lit "love") sample_png eq_refl eq_refl eq_refl)).
Defined.

(** C5, as stated, fails: from one and the same session state, two runs
    one second apart offer the image under two different names, so the
    name is not a function of the session state, which holds no
    generation time. *)
Lemma download_name_changes_between_runs :
  let run now := main world_ok sample_key (lit "love") false now
                   earlier_session in
  session (run sample_now) = earlier_session /\
  hd [] (markdowns (trace (run sample_now)))
  = download_anchor (b64encode sample_png)
      (lit "mandala_love_20240309_070501.png") /\
  hd [] (markdowns (trace (run one_second_later)))
  = download_anchor (b64encode sample_png)
      (lit "mandala_love_20240309_070502.png") /\
  markdowns (trace (run sample_now))
  <> markdowns (trace (run one_second_later)).
Proof. vm_compute. repeat split. discriminate. Qed.

(** ** How a failure is reported *)

(** C6, as the code has it. Every failing invocation returns the same
    pair, [(None, None)], whatever failed; what failed is told only by
    the one error message.  The message has the heading "Error with API
    key" when the client could not be built and the heading "Error
    generating image" for every later failure, and what follows the
    heading is the text of the very exception that was raised: by the
    constructor, by the generation call, by taking the first entry of an
    empty response, by the fetch, by the status check or by the decoder.
    A successful invocation shows no error. *)
Theorem failures_share_result_and_heading (W : World)
  (api_key inspiration_word : str) (s : SessionState) :
  let o := generate_mandala_image W api_key inspiration_word s in
  let prompt := generate_mandala_prompt inspiration_word in
  let failed_with message :=
    result o = inr (None, None) /\ errors_shown (trace o) = [message] in
  match OpenAI_raises W api_key with
  | Some text => failed_with (api_key_error text)
  | None =>
      match images_generate W {| client_api_key := api_key |}
              (generation_request prompt) with
      | inl text => failed_with (generating_error text)
      | inr {| data := [] |} =>
          failed_with (generating_error (lit "list index out of range"))
      | inr {| data := first :: _ |} =>
          match requests_get W (url first) with
          | inl text => failed_with (generating_error text)
          | inr r =>
              match http_error r with
              | Some text => failed_with (generating_error text)
              | None =>
                  match Image_open W (content r) with
                  | inl text => failed_with (generating_error text)
                  | inr image =>
                      result o = inr (Some image, Some prompt) /\
                      errors_shown (trace o) = []
                  end
              end
          end
      end
  end.
Proof.
  destruct (generate_mandala_image_path W api_key inspiration_word s)
    as (tr & st & r & Hp & ->).
  cbv zeta. cbn [trace result].
  destruct Hp;
    repeat match goal with
           | H : _ = _ |- _ => rewrite H; clear H
           end;
    split; reflexivity.
Qed.

(** C6, as stated, fails: a fetch answered with status 500 and bytes that
    do not decode are two different failures, and the invocation returns
    the same result for both. *)
Lemma fetch_and_decode_failures_return_alike :
  let W1 := world_status 500 (lit "Internal Server Error") in
  let W2 := world_undecodable in
  let o1 := generate_mandala_image W1 sample_key (lit "peace") empty_session in
  let o2 := generate_mandala_image W2 sample_key (lit "peace") empty_session in
  pipeline_path W1 sample_key (lit "peace") (trace o1) (Some Checking)
    (None, None) /\
  pipeline_path W2 sample_key (lit "peace") (trace o2) (Some Decoding)
    (None, None) /\
  result o1 = inr (None, None) /\
  result o2 = inr (None, None).
Proof.
  cbv zeta. repeat split.
  - eapply path_bad_status; reflexivity.
  - eapply path_decode_fails; reflexivity.
Qed.

(** ** Requests and fetches *)

Lemma http_error_none (r : Response) :
  http_error r = None ->
  (400 <=? status_code r) && (status_code r <? 600) = false.
Proof.
  unfold http_error.
  destruct (N.leb_spec 400 (status_code r)), (N.ltb_spec (status_code r) 500),
    (N.leb_spec 500 (status_code r)), (N.ltb_spec (status_code r) 600);
    cbn; try discriminate; try reflexivity; lia.
Qed.

(** C7, as the code has it. The generation request always has the same
    arguments but the prompt: model dall-e-3, one image, 1024x1024,
    standard quality.  An invocation whose client cannot be built makes
    no generation call and fetches nothing; every other invocation calls
    [client.images.generate] exactly once (what the client library sends
    on the wire for that call is its own affair).  When the call is
    answered with at least one entry,
    the invocation fetches exactly once, the locator of the first entry,
    and a fetch answered with a status from 400 to 599 makes the
    invocation fail; otherwise it fetches nothing and fails. *)
Theorem one_request_then_one_fetch (W : World)
  (api_key inspiration_word : str) (s : SessionState) :
  let o := generate_mandala_image W api_key inspiration_word s in
  let request := generation_request (generate_mandala_prompt inspiration_word) in
  (req_model request = lit "dall-e-3" /\ req_n request = 1 /\
   req_size request = lit "1024x1024" /\ req_quality request = lit "standard")
  /\
  match OpenAI_raises W api_key with
  | Some _ => generation_requests (trace o) = [] /\ fetches (trace o) = []
  | None =>
      generation_requests (trace o) = [request] /\
      match images_generate W {| client_api_key := api_key |} request with
      | inr {| data := first :: _ |} =>
          fetches (trace o) = [url first] /\
          match requests_get W (url first) with
          | inr r =>
              if (400 <=? status_code r) && (status_code r <? 600)
              then result o = inr (None, None)
              else True
          | inl _ => result o = inr (None, None)
          end
      | _ => fetches (trace o) = [] /\ result o = inr (None, None)
      end
  end.
Proof.
  destruct (generate_mandala_image_path W api_key inspiration_word s)
    as (tr & st & r & Hp & ->).
  cbv zeta. cbn [trace result].
  split; [repeat split |].
  destruct Hp;
    repeat match goal with
           | H : _ = _ |- _ => rewrite H; clear H
           end;
    repeat split;
    try match goal with
        | |- context [http_error ?r] => idtac
        | H : http_error ?r = None |- _ =>
            try rewrite (http_error_none _ H)
        end;
    try (destruct (_ && _)); auto.
Qed.

(** C7, as stated, fails twice: an invocation whose client cannot be
    built makes no generation call, and a fetch answered with status 300
    and an image as body, which is not a 2xx status, is not treated as a
    failure. *)
Lemma no_request_without_client_and_300_accepted :
  generation_requests
    (trace (generate_mandala_image world_no_client sample_key (lit "peace")
              empty_session)) = [] /\
  result (generate_mandala_image (world_status 300 (lit "Multiple Choices"))
            sample_key (lit "peace") empty_session)
  = inr (Some sample_image, Some (generate_mandala_prompt (lit "peace"))).
Proof. split; reflexivity. Qed.

(** ** Where the credential goes *)

Lemma shown_app (t1 t2 : list event) :
  shown (t1 ++ t2) = shown t1 ++ shown t2.
Proof. apply filter_app. Qed.

Lemma submit_disabled_alike (k1 k2 topic : str) :
  truthy (strip k1) = truthy (strip k2) ->
  truthy (can_generate k1 topic) = truthy (can_generate k2 topic).
Proof. intros H. unfold can_generate. now rewrite !truthy_and_, H. Qed.

(** Two invocations that differ in the credential only, and that the
    client library answers alike, return the same and show the same. *)
Lemma path_alike (W : World) (k1 k2 word : str) tr1 st1 r1 tr2 st2 r2 :
  OpenAI_raises W k1 = OpenAI_raises W k2 ->
  (forall req, images_generate W {| client_api_key := k1 |} req
               = images_generate W {| client_api_key := k2 |} req) ->
  pipeline_path W k1 word tr1 st1 r1 ->
  pipeline_path W k2 word tr2 st2 r2 ->
  r1 = r2 /\ shown tr1 = shown tr2.
Proof.
  intros Hc Hg P1 P2.
  specialize (Hg (generation_request (generate_mandala_prompt word))).
  destruct P1; destruct P2; unfold requested; cbn; split;
    try reflexivity; congruence.
Qed.

Lemma path_alike_but_credential (W : World) (k1 k2 word : str)
  tr1 st1 r1 tr2 st2 r2 :
  OpenAI_raises W k1 = OpenAI_raises W k2 ->
  (forall req, images_generate W {| client_api_key := k1 |} req
               = images_generate W {| client_api_key := k2 |} req) ->
  pipeline_path W k1 word tr1 st1 r1 ->
  pipeline_path W k2 word tr2 st2 r2 ->
  map forget_credential tr1 = map forget_credential tr2.
Proof.
  intros Hc Hg P1 P2.
  specialize (Hg (generation_request (generate_mandala_prompt word))).
  destruct P1; destruct P2; unfold requested; cbn;
    try reflexivity; congruence.
Qed.

(** C8, as the code has it. The credential is handed to the client
    constructor (and, inside the client, to the generation call) and to
    nothing else: it is never written to the session state and no
    message is built from it.  For two credentials that are both blank
    or both not, and that the client library answers alike (the
    constructor, and every generation request), a run ends with the same
    session state and the same outcome, shows the user the same, error
    messages included, and makes the same calls, but for the credential
    in the two calls of the client. *)
Theorem credential_only_reaches_the_client (W : World) (k1 k2 topic : str)
  (pressed : bool) (now : datetime) (s : SessionState) :
  truthy (strip k1) = truthy (strip k2) ->
  OpenAI_raises W k1 = OpenAI_raises W k2 ->
  (forall req, images_generate W {| client_api_key := k1 |} req
               = images_generate W {| client_api_key := k2 |} req) ->
  let o1 := main W k1 topic pressed now s in
  let o2 := main W k2 topic pressed now s in
  session o1 = session o2 /\ result o1 = result o2 /\
  shown (trace o1) = shown (trace o2) /\
  map forget_credential (trace o1) = map forget_credential (trace o2).
Proof.
  intros Hk Hc Hg. cbv zeta.
  pose proof (submit_disabled_alike k1 k2 topic Hk) as Ht.
  assert (Hb : button_event k1 topic = button_event k2 topic).
  { unfold button_event, submit_disabled. now rewrite Ht. }
  destruct (pressed && truthy (can_generate k1 topic)) eqn:E1.
  - apply andb_true_iff in E1 as [-> E1].
    assert (E2 : truthy (can_generate k2 topic) = true) by congruence.
    destruct (generate_mandala_image_path W k1 (strip topic) s)
      as (tr1 & st1 & r1 & P1 & G1).
    destruct (generate_mandala_image_path W k2 (strip topic) s)
      as (tr2 & st2 & r2 & P2 & G2).
    pose proof (path_alike_but_credential _ _ _ _ _ _ _ _ _ _ Hc Hg P1 P2)
      as Hf.
    destruct (path_alike _ _ _ _ _ _ _ _ _ _ Hc Hg P1 P2) as [<- Hs].
    destruct r1 as [[image|] prompt].
    + rewrite (main_stops _ _ _ _ _ _ _ _ _
                 (left_column_success _ _ _ _ _ _ _ E1 G1)).
      rewrite (main_stops _ _ _ _ _ _ _ _ _
                 (left_column_success _ _ _ _ _ _ _ E2 G2)).
      cbn [session result trace]. rewrite Hb. repeat split.
      * change (button_event k2 topic :: tr1 ++ [success_event topic])
          with ([button_event k2 topic] ++ tr1 ++ [success_event topic]).
        change (button_event k2 topic :: tr2 ++ [success_event topic])
          with ([button_event k2 topic] ++ tr2 ++ [success_event topic]).
        rewrite !shown_app, Hs. reflexivity.
      * cbn [map]. rewrite !map_app, Hf. reflexivity.
    + rewrite (main_continues _ _ _ _ _ _ _ _
                 (left_column_failure _ _ _ _ _ _ E1 G1)).
      rewrite (main_continues _ _ _ _ _ _ _ _
                 (left_column_failure _ _ _ _ _ _ E2 G2)).
      cbn [session result trace]. rewrite Hb. repeat split.
      * change (button_event k2 topic :: tr1)
          with ([button_event k2 topic] ++ tr1).
        change (button_event k2 topic :: tr2)
          with ([button_event k2 topic] ++ tr2).
        rewrite !shown_app, Hs. reflexivity.
      * rewrite <- !app_comm_cons. cbn [map]. rewrite !map_app, Hf.
        reflexivity.
  - assert (E2 : pressed && truthy (can_generate k2 topic) = false)
      by congruence.
    rewrite (main_continues _ _ _ _ _ _ _ _
               (left_column_idle W _ _ _ s E1)).
    rewrite (main_continues _ _ _ _ _ _ _ _
               (left_column_idle W _ _ _ s E2)).
    cbn [session result trace]. rewrite Hb, Hk. repeat split.
Qed.

Lemma credential_only_reaches_the_client_witness :
  let o1 := main world_ok (lit "sk-one") (lit "peace") true sample_now
              empty_session in
  let o2 := main world_ok (lit "sk-two") (lit "peace") true sample_now
              empty_session in
  session o1 = session o2 /\ result o1 = result o2 /\
  shown (trace o1) = shown (trace o2) /\
  map forget_credential (trace o1) = map forget_credential (trace o2).
Proof.
  exact (credential_only_reaches_the_client world_ok (lit "sk-one")
           (lit "sk-two") (lit "peace") true sample_now empty_session
           eq_refl eq_refl (fun _ => eq_refl)).
Defined.

(** C8, as stated, fails: when the service rejects the credential with a
    message that quotes it, the error shown to the user contains the
    credential. *)
Lemma error_message_can_quote_credential :
  let o := main world_quoting_key (lit "sk-secret") (lit "peace") true
             sample_now empty_session in
  errors_shown (trace o)
  = [generating_error (lit "Incorrect API key provided: sk-secret")] /\
  contains (lit "sk-secret")
    (generating_error (lit "Incorrect API key provided: sk-secret")) = true
  /\ session o = empty_session.
Proof. vm_compute. repeat split. Qed.

(** * Further properties of the script *)

(** ** Trimming *)

Lemma lstrip_idempotent (s : str) : lstrip (lstrip s) = lstrip s.
Proof.
  induction s as [|c t IH]; [reflexivity |]. simpl.
  destruct (isspace c) eqn:Hc; [exact IH |]. simpl. now rewrite Hc.
Qed.

Lemma lstrip_snoc (l : str) (c : char) :
  isspace c = false -> lstrip (l ++ [c]) = lstrip l ++ [c].
Proof.
  intros Hc. induction l as [|x l IH]; simpl.
  - now rewrite Hc.
  - destruct (isspace x); [exact IH | reflexivity].
Qed.

Lemma rstrip_idempotent (s : str) : rstrip (rstrip s) = rstrip s.
Proof. unfold rstrip. now rewrite rev_involutive, lstrip_idempotent. Qed.

Lemma lstrip_rstrip_lstrip (s : str) :
  lstrip (rstrip (lstrip s)) = rstrip (lstrip s).
Proof.
  destruct (lstrip s) as [|c u] eqn:E; [reflexivity |].
  pose proof (lstrip_head _ _ _ E) as Hc.
  unfold rstrip. cbn [rev]. rewrite (lstrip_snoc _ _ Hc), rev_app_distr.
  cbn. now rewrite Hc.
Qed.

(** Trimming twice is trimming once. *)
Lemma strip_idempotent (s : str) : strip (strip s) = strip s.
Proof.
  unfold strip at 1. unfold strip at 1.
  rewrite lstrip_rstrip_lstrip. apply rstrip_idempotent.
Qed.

(** A trimmed string neither starts nor ends with white space. *)
Lemma strip_first (s : str) c rest :
  strip s = c :: rest -> isspace c = false.
Proof.
  intros H. apply (lstrip_head (strip s) c rest).
  unfold strip. now rewrite lstrip_rstrip_lstrip.
Qed.

Lemma strip_last (s : str) pre c :
  strip s = pre ++ [c] -> isspace c = false.
Proof.
  unfold strip, rstrip. intros H.
  apply (f_equal (@rev char)) in H.
  rewrite rev_involutive, rev_app_distr in H. cbn in H.
  exact (lstrip_head _ _ _ H).
Qed.

(** ** What a run does to the session state *)

(** A run leaves the session state as it was, or it is a submit that
    succeeded, and then the state holds the new result and nothing else. *)
Lemma main_session_cases (W : World) (api_key topic : str) (pressed : bool)
  (now : datetime) (s : SessionState) :
  let o := main W api_key topic pressed now s in
  (session o = s /\ result o = result (right_column W now s)) \/
  (pressed = true /\ submit_disabled api_key topic = false /\
   result o = inl RerunException /\
   exists image,
     result (generate_mandala_image W api_key (strip topic) s)
     = inr (Some image, Some (generate_mandala_prompt (strip topic))) /\
     session o = {| current_image := Some image;
                    current_prompt :=
                      Some (generate_mandala_prompt (strip topic));
                    current_word := Some (strip topic) |}).
Proof.
  cbv zeta.
  destruct (right_column_frame W now s) as (Hs & _).
  destruct (pressed && truthy (can_generate api_key topic)) eqn:E.
  - apply andb_true_iff in E as [-> E].
    destruct (generate_mandala_image_path W api_key (strip topic) s)
      as (tr & st & r & Hp & Hg).
    pose proof (path_result _ _ _ _ _ _ Hp) as Hr.
    destruct st as [st|].
    + subst r. left.
      rewrite (main_continues _ _ _ _ _ _ _ _
                 (left_column_failure _ _ _ _ _ _ E Hg)).
      cbn [session result]. now split.
    + destruct Hr as [image ->]. right.
      rewrite (main_stops _ _ _ _ _ _ _ _ _
                 (left_column_success _ _ _ _ _ _ _ E Hg)).
      cbn [session result]. repeat split.
      * unfold submit_disabled. now rewrite E.
      * exists image. rewrite Hg. now split.
  - left.
    rewrite (main_continues _ _ _ _ _ _ _ _
               (left_column_idle W _ _ _ s E)).
    cbn [session result]. now split.
Qed.

Lemma main_keeps_well_formed (W : World) (api_key topic : str)
  (pressed : bool) (now : datetime) (s : SessionState) :
  well_formed s -> well_formed (session (main W api_key topic pressed now s)).
Proof.
  intros Hwf.
  destruct (main_session_cases W api_key topic pressed now s)
    as [[-> _] | (_ & Hd & _ & image & _ & ->)]; [exact Hwf |].
  unfold well_formed. cbn. exists (strip topic).
  repeat split; [apply strip_idempotent |].
  apply submit_enabled_truthy, can_generate_truthy in Hd as [_ Hw].
  intros E. rewrite E in Hw. discriminate.
Qed.

Lemma session_after_snoc (inputs : list run_input) (i : run_input)
  (s : SessionState) :
  session_after (inputs ++ [i]) s = session (run i (session_after inputs s)).
Proof. unfold session_after. now rewrite fold_left_app. Qed.

Lemma session_after_well_formed (inputs : list run_input) :
  well_formed (session_after inputs empty_session).
Proof.
  induction inputs as [|i inputs IH] using rev_ind.
  - cbn. now split.
  - rewrite session_after_snoc. apply main_keeps_well_formed, IH.
Qed.

(** X5. Whatever runs a session has seen, started from the empty state,
    its three attributes are absent together or present together; when
    present, the stored prompt is [generate_mandala_prompt] of the stored
    word. *)
Theorem session_attributes_stay_consistent (inputs : list run_input) :
  let s := session_after inputs empty_session in
  match current_image s with
  | None => current_prompt s = None /\ current_word s = None
  | Some _ =>
      exists word,
        current_word s = Some word /\
        current_prompt s = Some (generate_mandala_prompt word)
  end.
Proof.
  cbv zeta. pose proof (session_after_well_formed inputs) as H.
  unfold well_formed in H.
  destruct (current_image _); [| exact H].
  destruct H as (word & Hw & Hp & _). eauto.
Qed.

(** X7. The word a session stores is never empty and neither starts nor
    ends with white space, whatever was typed into the topic input. *)
Theorem stored_word_is_trimmed (inputs : list run_input) (word : str) :
  current_word (session_after inputs empty_session) = Some word ->
  word <> [] /\
  (forall c rest, word = c :: rest -> isspace c = false) /\
  (forall pre c, word = pre ++ [c] -> isspace c = false).
Proof.
  intros Hw. pose proof (session_after_well_formed inputs) as H.
  unfold well_formed in H.
  destruct (current_image _).
  - destruct H as (w & Hw' & _ & Hs & Hne).
    assert (w = word) by congruence. subst w.
    repeat split; [exact Hne | |].
    + intros c rest E. rewrite <- Hs in E. exact (strip_first _ _ _ E).
    + intros pre c E. rewrite <- Hs in E. exact (strip_last _ _ _ E).
  - destruct H as [_ H]. congruence.
Qed.

Lemma stored_word_is_trimmed_witness :
  current_word
    (session_after
       [{| run_world := world_ok; run_api_key := sample_key;
           run_topic := lit "  peace  "; run_pressed := true;
           run_now := sample_now |}] empty_session) = Some (lit "peace") /\
  lit "peace" <> [] /\
  (forall c rest, lit "peace" = c :: rest -> isspace c = false) /\
  (forall pre c, lit "peace" = pre ++ [c] -> isspace c = false).
Proof.
  split; [reflexivity |].
  exact (stored_word_is_trimmed
           [{| run_world := world_ok; run_api_key := sample_key;
               run_topic := lit "  peace  "; run_pressed := true;
               run_now := sample_now |}] (lit "peace") eq_refl).
Defined.


(** ** The pipeline on its own *)

Lemma path_deterministic (W : World) (api_key word : str)
  tr1 st1 r1 tr2 st2 r2 :
  pipeline_path W api_key word tr1 st1 r1 ->
  pipeline_path W api_key word tr2 st2 r2 ->
  tr1 = tr2 /\ st1 = st2 /\ r1 = r2.
Proof.
  intros P1 P2. destruct P1; destruct P2; repeat split; congruence.
Qed.

(** X1. An invocation of the pipeline never raises: every exception of
    the client, of the fetch and of the decoder is caught.  It neither
    writes nor reads the session state: it leaves the state as it was,
    and from any other state it returns the same and produces the same
    events. *)
Theorem pipeline_never_raises_nor_uses_session (W : World)
  (api_key inspiration_word : str) (s s' : SessionState) :
  let o := generate_mandala_image W api_key inspiration_word s in
  let o' := generate_mandala_image W api_key inspiration_word s' in
  (exists r, result o = inr r) /\ session o = s /\
  result o' = result o /\ trace o' = trace o.
Proof.
  destruct (generate_mandala_image_path W api_key inspiration_word s)
    as (tr & st & r & Hp & ->).
  destruct (generate_mandala_image_path W api_key inspiration_word s')
    as (tr' & st' & r' & Hp' & ->).
  destruct (path_deterministic _ _ _ _ _ _ _ _ _ Hp Hp') as (-> & _ & ->).
  cbn. eauto.
Qed.

(** X2. An invocation calls the outside in a fixed order, each call at
    most once, and goes on to the next call exactly when the one before
    succeeded: the client is always built; the generation call is made
    when the client was built; the fetch when the generation call
    returned an entry; the decoder when the fetch returned a response
    that passes the status check.  The script itself never repeats a
    call. *)
Theorem pipeline_calls_once_in_order (W : World)
  (api_key inspiration_word : str) (s : SessionState) :
  let o := generate_mandala_image W api_key inspiration_word s in
  let request :=
    generation_request (generate_mandala_prompt inspiration_word) in
  call_kinds (trace o)
  = match OpenAI_raises W api_key with
    | Some _ => [ClientCall]
    | None =>
        match images_generate W {| client_api_key := api_key |} request with
        | inr {| data := first :: _ |} =>
            match requests_get W (url first) with
            | inr r =>
                match http_error r with
                | None => [ClientCall; GenerationCall; FetchCall; DecodeCall]
                | Some _ => [ClientCall; GenerationCall; FetchCall]
                end
            | inl _ => [ClientCall; GenerationCall; FetchCall]
            end
        | _ => [ClientCall; GenerationCall]
        end
    end.
Proof.
  destruct (generate_mandala_image_path W api_key inspiration_word s)
    as (tr & st & r & Hp & ->).
  cbv zeta. cbn [trace].
  destruct Hp;
    repeat match goal with
           | H : _ = _ |- _ => rewrite H; clear H
           end;
    reflexivity.
Qed.

(** X3. [create_openai_client] never raises and leaves the session state
    alone.  It returns no client exactly when the constructor raises,
    and then shows one message, "Error with API key" followed by the
    text of the exception; otherwise it returns a client that holds the
    key it was given and shows nothing. *)
Theorem create_openai_client_outcome (W : World) (api_key : str)
  (s : SessionState) :
  let o := create_openai_client W api_key s in
  session o = s /\
  match OpenAI_raises W api_key with
  | Some text =>
      result o = inr None /\ errors_shown (trace o) = [api_key_error text]
  | None =>
      result o = inr (Some {| client_api_key := api_key |}) /\
      errors_shown (trace o) = []
  end.
Proof.
  unfold create_openai_client, openai_OpenAI.
  destruct (OpenAI_raises W api_key); run_script; repeat split.
Qed.

(** ** The page on its own *)

Lemma main_idle_run (W : World) (api_key topic : str) (now : datetime)
  (s : SessionState) :
  main W api_key topic false now s
  = {| session := session (right_column W now s);
       trace := (button_event api_key topic
                   :: (if negb (truthy (strip api_key))
                          || negb (truthy (strip topic))
                       then [hint_event] else []))
                ++ trace (right_column W now s);
       result := result (right_column W now s) |}.
Proof.
  apply main_continues. apply (left_column_idle W api_key topic false s).
  reflexivity.
Qed.





(** ** The prompt as a function of the word *)

Lemma app_same_length {A} (a b c d : list A) :
  a ++ b = c ++ d -> List.length a = List.length c -> a = c /\ b = d.
Proof.
  revert c. induction a as [|x a IH]; intros [|y c] H L;
    try discriminate; cbn in *.
  - auto.
  - injection H as -> H. injection L as L.
    destruct (IH _ H L) as [-> ->]. auto.
Qed.

Lemma prompt_length (word : str) :
  List.length (generate_mandala_prompt word)
  = (675 + 2 * List.length word)%nat.
Proof.
  unfold generate_mandala_prompt. rewrite !length_app.
  change (List.length prompt_head) with 83%nat.
  change (List.length prompt_body) with 316%nat.
  change (List.length prompt_tail) with 276%nat.
  lia.
Qed.

(** X8. The prompt is 675 characters longer than twice the word, and it
    tells the word: two words with the same prompt are the same word. *)
Theorem prompt_determines_word (word : str) :
  List.length (generate_mandala_prompt word)
  = (675 + 2 * List.length word)%nat /\
  forall word',
    generate_mandala_prompt word = generate_mandala_prompt word' ->
    word = word'.
Proof.
  split; [apply prompt_length |].
  intros word' H.
  assert (L : List.length word = List.length word').
  { apply (f_equal (@List.length char)) in H.
    rewrite !prompt_length in H. lia. }
  unfold generate_mandala_prompt in H. apply app_inv_head in H.
  exact (proj1 (app_same_length _ _ _ _ H L)).
Qed.

Lemma prompt_determines_word_witness :
  lit "peace" = strip (lit " peace ").
Proof.
  exact (proj2 (prompt_determines_word (lit "peace"))
           (strip (lit " peace ")) eq_refl).
Defined.

(** ** The download name as a function of the clock *)

Lemma cons_eq {A} (x y : A) (l l' : list A) :
  x :: l = y :: l' -> x = y /\ l = l'.
Proof. intros H. injection H as -> ->. auto. Qed.

Lemma decimal_step (x y : N) :
  x mod 10 = y mod 10 -> x / 10 = y / 10 -> x = y.
Proof.
  intros Hm Hd.
  rewrite (N.div_mod x 10), (N.div_mod y 10) by discriminate.
  now rewrite Hm, Hd.
Qed.

Lemma digits4_inj (a b : N) :
  a < 10000 -> b < 10000 -> digits4 a = digits4 b -> a = b.
Proof.
  unfold digits4. intros Ha Hb H.
  apply cons_eq in H as [H1 H]. apply cons_eq in H as [H2 H].
  apply cons_eq in H as [H3 H]. apply cons_eq in H as [H4 _].
  apply N.add_cancel_l in H1, H2, H3, H4.
  apply decimal_step; [exact H4 |].
  apply decimal_step; [exact H3 |]. rewrite !N.Div0.div_div.
  apply decimal_step; [exact H2 |]. rewrite !N.Div0.div_div.
  change (10 * 10 * 10) with 1000.
  rewrite !N.mod_small in H1; [exact H1 | |];
    apply N.Div0.div_lt_upper_bound; lia.
Qed.

Lemma digits2_inj (a b : N) :
  a < 100 -> b < 100 -> digits2 a = digits2 b -> a = b.
Proof.
  unfold digits2. intros Ha Hb H.
  apply cons_eq in H as [H1 H]. apply cons_eq in H as [H2 _].
  apply N.add_cancel_l in H1, H2.
  apply decimal_step; [exact H2 |].
  rewrite !N.mod_small in H1; [exact H1 | |];
    apply N.Div0.div_lt_upper_bound; lia.
Qed.

Lemma strftime_inj (t1 t2 : datetime) :
  calendar t1 -> calendar t2 -> strftime t1 = strftime t2 ->
  same_second t1 t2.
Proof.
  intros (Hy1 & Hm1 & Hd1 & Hh1 & Hi1 & Hs1)
         (Hy2 & Hm2 & Hd2 & Hh2 & Hi2 & Hs2) H.
  unfold strftime in H. change (lit "_") with [95] in H.
  destruct (app_same_length _ _ _ _ H eq_refl) as [Ey H1].
  destruct (app_same_length _ _ _ _ H1 eq_refl) as [Em H2].
  destruct (app_same_length _ _ _ _ H2 eq_refl) as [Ed H3].
  destruct (app_same_length _ _ _ _ H3 eq_refl) as [_ H4].
  destruct (app_same_length _ _ _ _ H4 eq_refl) as [Eh H5].
  destruct (app_same_length _ _ _ _ H5 eq_refl) as [Ei Es].
  unfold same_second.
  repeat split; [apply digits4_inj | apply digits2_inj ..];
    try assumption; lia.
Qed.

(** X11. The name under which the image is offered tells the second it
    was built in: for two clock readings in calendar range, the names for
    the same word are equal exactly when the readings agree from the year
    down to the second. *)
Theorem download_name_identifies_second (word : str) (t1 t2 : datetime) :
  calendar t1 -> calendar t2 ->
  (download_filename word t1 = download_filename word t2 <->
   same_second t1 t2).
Proof.
  intros C1 C2. split.
  - intros H. unfold download_filename in H.
    apply app_inv_head, app_inv_head, app_inv_head, app_inv_tail in H.
    exact (strftime_inj _ _ C1 C2 H).
  - intros (Ey & Em & Ed & Eh & Ei & Es).
    unfold download_filename, strftime.
    now rewrite Ey, Em, Ed, Eh, Ei, Es.
Qed.

Lemma download_name_identifies_second_witness :
  calendar sample_now /\ calendar one_second_later /\
  (download_filename (lit "love") sample_now
   = download_filename (lit "love") one_second_later <->
   same_second sample_now one_second_later).
Proof.
  assert (C1 : calendar sample_now) by (unfold calendar; cbn; lia).
  assert (C2 : calendar one_second_later) by (unfold calendar; cbn; lia).
  exact (conj C1 (conj C2
           (download_name_identifies_second (lit "love") sample_now
              one_second_later C1 C2))).
Defined.

(** ** What a run shows and calls *)

Lemma errors_shown_app (t1 t2 : list event) :
  errors_shown (t1 ++ t2) = errors_shown t1 ++ errors_shown t2.
Proof. apply flat_map_app. Qed.

Lemma submit_disabled_either_blank (api_key topic : str) :
  submit_disabled api_key topic
  = negb (truthy (strip api_key)) || negb (truthy (strip topic)).
Proof.
  unfold submit_disabled, can_generate. rewrite truthy_and_.
  apply negb_andb.
Qed.

Lemma hint_is_not_placeholder : hint_event <> placeholder_event.
Proof. unfold hint_event, placeholder_event. cbn. discriminate. Qed.

Lemma path_shows_no_hint (W : World) (api_key word : str) tr st r :
  pipeline_path W api_key word tr st r -> ~ In hint_event tr.
Proof.
  intros Hp. unfold hint_event.
  destruct Hp; unfold requested; cbn; intuition discriminate.
Qed.

Lemma path_starts_with_client (W : World) (api_key word : str) tr st r :
  pipeline_path W api_key word tr st r ->
  exists rest, tr = CallOpenAI api_key :: rest.
Proof. intros Hp. destruct Hp; unfold requested; cbn; eauto. Qed.

Lemma right_column_shows_no_hint (W : World) (now : datetime)
  (s : SessionState) :
  ~ In hint_event (trace (right_column W now s)).
Proof.
  rewrite right_column_run.
  destruct (current_image s) as [image|]; cbn.
  2: { intros [H | []]. symmetry in H. exact (hint_is_not_placeholder H). }
  destruct (current_word s) as [word|]; cbn; [| tauto].
  destruct (Image_load W image) as [t|]; cbn; [tauto |].
  destruct (Image_encode_png W image) as [t|png]; cbn.
  - unfold hint_event. intuition discriminate.
  - destruct (current_prompt s); cbn; unfold hint_event;
      intuition discriminate.
Qed.

(** X10. The hint "Please enter both your API key and inspiration word"
    is shown in a run exactly when the submit button of that run is
    disabled. *)
Theorem hint_shown_iff_submit_disabled (W : World) (api_key topic : str)
  (pressed : bool) (now : datetime) (s : SessionState) :
  In hint_event (trace (main W api_key topic pressed now s)) <->
  submit_disabled api_key topic = true.
Proof.
  pose proof (right_column_shows_no_hint W now s) as Hright.
  destruct (pressed && truthy (can_generate api_key topic)) eqn:E.
  - apply andb_true_iff in E as [-> E].
    assert (Hd : submit_disabled api_key topic = false)
      by (unfold submit_disabled; now rewrite E).
    rewrite Hd.
    destruct (generate_mandala_image_path W api_key (strip topic) s)
      as (tr & st & [[image|] prompt] & Hp & Hg);
      pose proof (path_shows_no_hint _ _ _ _ _ _ Hp) as Hleft.
    + rewrite (main_stops _ _ _ _ _ _ _ _ _
                 (left_column_success _ _ _ _ _ _ _ E Hg)).
      cbn [trace]. split; [| discriminate].
      intros [H | H]; [discriminate H |].
      apply in_app_or in H as [H | [H | []]]; [tauto | discriminate H].
    + rewrite (main_continues _ _ _ _ _ _ _ _
                 (left_column_failure _ _ _ _ _ _ E Hg)).
      cbn [trace]. split; [| discriminate].
      intros H. apply in_app_or in H as [[H | H] | H];
        [discriminate H | tauto | tauto].
  - rewrite (main_continues _ _ _ _ _ _ _ _
               (left_column_idle W _ _ _ s E)).
    cbn [trace]. rewrite submit_disabled_either_blank.
    destruct (negb (truthy (strip api_key)) || negb (truthy (strip topic))).
    + split; [reflexivity |]. intros _. right. left. reflexivity.
    + split; [| discriminate].
      intros [H | H]; [discriminate H | tauto].
Qed.

Lemma hint_shown_iff_submit_disabled_witness :
  In hint_event
    (trace (main world_ok [] (lit "peace") false sample_now empty_session)).
Proof.
  exact (proj2 (hint_shown_iff_submit_disabled world_ok [] (lit "peace")
                  false sample_now empty_session) eq_refl).
Defined.

(** X12. A run calls the pipeline exactly when the button returned true
    and is enabled; every other run makes no call to the client, the
    generation service, the fetch or the decoder. *)
Theorem pipeline_invoked_iff_enabled_submit (W : World)
  (api_key topic : str) (pressed : bool) (now : datetime)
  (s : SessionState) :
  pipeline_calls (trace (main W api_key topic pressed now s)) <> [] <->
  pressed = true /\ submit_disabled api_key topic = false.
Proof.
  destruct (right_column_frame W now s) as (_ & Hright & _).
  destruct (pressed && truthy (can_generate api_key topic)) eqn:E.
  - apply andb_true_iff in E as [-> E].
    split; [intros _; split; [reflexivity |];
            unfold submit_disabled; now rewrite E |].
    intros _.
    destruct (generate_mandala_image_path W api_key (strip topic) s)
      as (tr & st & [[image|] prompt] & Hp & Hg);
      destruct (path_starts_with_client _ _ _ _ _ _ Hp) as [rest ->].
    + rewrite (main_stops _ _ _ _ _ _ _ _ _
                 (left_column_success _ _ _ _ _ _ _ E Hg)).
      cbn. discriminate.
    + rewrite (main_continues _ _ _ _ _ _ _ _
                 (left_column_failure _ _ _ _ _ _ E Hg)).
      cbn. discriminate.
  - rewrite (main_continues _ _ _ _ _ _ _ _
               (left_column_idle W _ _ _ s E)).
    cbn [trace]. rewrite pipeline_calls_app, Hright.
    split.
    + destruct (negb (truthy (strip api_key))
                || negb (truthy (strip topic))); cbn; congruence.
    + intros [-> Hd]. unfold submit_disabled in Hd.
      apply negb_false_iff in Hd. rewrite Hd in E. discriminate.
Qed.

Lemma pipeline_invoked_iff_enabled_submit_witness :
  pipeline_calls
    (trace (main world_ok sample_key (lit "peace") true sample_now
              empty_session)) <> [].
Proof.
  exact (proj2 (pipeline_invoked_iff_enabled_submit world_ok sample_key
                  (lit "peace") true sample_now empty_session)
           (conj eq_refl eq_refl)).
Defined.

(** X13. A successful submit replaces the stored result wholesale: the
    session state it leaves is the same whatever the session held
    before. *)
Theorem successful_submit_replaces_result (W : World) (api_key topic : str)
  (now : datetime) (s1 s2 : SessionState) (image : PILImage)
  (prompt : option str) :
  submit_disabled api_key topic = false ->
  result (generate_mandala_image W api_key (strip topic) s1)
  = inr (Some image, prompt) ->
  session (main W api_key topic true now s2)
  = session (main W api_key topic true now s1) /\
  current_image (session (main W api_key topic true now s2)) = Some image.
Proof.
  intros He Hr. apply submit_enabled_truthy in He.
  destruct (generate_mandala_image_path W api_key (strip topic) s1)
    as (tr1 & st1 & r1 & P1 & G1).
  destruct (generate_mandala_image_path W api_key (strip topic) s2)
    as (tr2 & st2 & r2 & P2 & G2).
  destruct (path_deterministic _ _ _ _ _ _ _ _ _ P1 P2) as (<- & _ & <-).
  rewrite G1 in Hr. cbn in Hr. injection Hr as ->.
  rewrite (main_stops _ _ _ _ _ _ _ _ _
             (left_column_success _ _ _ _ _ _ _ He G1)).
  rewrite (main_stops _ _ _ _ _ _ _ _ _
             (left_column_success _ _ _ _ _ _ _ He G2)).
  split; reflexivity.
Qed.

Lemma successful_submit_replaces_result_witness :
  session (main world_ok sample_key (lit "peace") true sample_now
             earlier_session)
  = session (main world_ok sample_key (lit "peace") true sample_now
               empty_session) /\
  current_image
    (session (main world_ok sample_key (lit "peace") true sample_now
                earlier_session)) = Some sample_image.
Proof.
  exact (successful_submit_replaces_result world_ok sample_key
           (lit "peace") sample_now empty_session earlier_session
           sample_image (Some (generate_mandala_prompt (lit "peace")))
           eq_refl eq_refl).
Defined.

(** X14. A run shows at most one error message, and it shows one
    exactly when it is an enabled submit whose invocation failed. *)
Theorem one_error_iff_failed_submit (W : World) (api_key topic : str)
  (pressed : bool) (now : datetime) (s : SessionState) :
  let o := main W api_key topic pressed now s in
  (List.length (errors_shown (trace o)) <= 1)%nat /\
  (errors_shown (trace o) <> [] <->
   pressed = true /\ submit_disabled api_key topic = false /\
   result (generate_mandala_image W api_key (strip topic) s)
   = inr (None, None)).
Proof.
  cbv zeta.
  destruct (right_column_frame W now s) as (_ & _ & Hright & _).
  destruct (pressed && truthy (can_generate api_key topic)) eqn:E.
  - apply andb_true_iff in E as [-> E].
    assert (Hd : submit_disabled api_key topic = false)
      by (unfold submit_disabled; now rewrite E).
    destruct (generate_mandala_image_path W api_key (strip topic) s)
      as (tr & st & r & Hp & Hg).
    pose proof (path_result _ _ _ _ _ _ Hp) as Hres.
    pose proof (path_errors_shown _ _ _ _ _ _ Hp) as Herr.
    rewrite Hg. cbn [result].
    destruct st as [st|].
    + subst r.
      rewrite (main_continues _ _ _ _ _ _ _ _
                 (left_column_failure _ _ _ _ _ _ E Hg)).
      cbn [trace]. rewrite errors_shown_app, Hright, app_nil_r.
      change (errors_shown (button_event api_key topic :: tr))
        with (errors_shown tr).
      assert (exists text, errors_shown tr = [text]) as [text ->].
      { destruct st; try destruct Herr as (text & _ & Herr);
          try destruct Herr as (text & Herr); eauto. }
      split; [cbn; lia |]. split; [auto | discriminate].
    + destruct Hres as [image ->].
      rewrite (main_stops _ _ _ _ _ _ _ _ _
                 (left_column_success _ _ _ _ _ _ _ E Hg)).
      cbn [trace].
      change (button_event api_key topic :: tr ++ [success_event topic])
        with ([button_event api_key topic] ++ tr ++ [success_event topic]).
      rewrite !errors_shown_app, Herr. cbn.
      split; [lia |]. split; [congruence |].
      intros (_ & _ & H). discriminate.
  - rewrite (main_continues _ _ _ _ _ _ _ _
               (left_column_idle W _ _ _ s E)).
    cbn [trace]. rewrite errors_shown_app, Hright, app_nil_r.
    assert (Hnone : errors_shown
                      (button_event api_key topic
                         :: (if negb (truthy (strip api_key))
                                || negb (truthy (strip topic))
                             then [hint_event] else [])) = []).
    { destruct (negb (truthy (strip api_key))
                || negb (truthy (strip topic))); reflexivity. }
    rewrite Hnone. split; [cbn; lia |]. split; [congruence |].
    intros (-> & Hd & _). unfold submit_disabled in Hd.
    apply negb_false_iff in Hd. rewrite Hd in E. discriminate.
Qed.

Lemma one_error_iff_failed_submit_witness :
  errors_shown
    (trace (main (world_status 500 (lit "Internal Server Error"))
              sample_key (lit "peace") true sample_now empty_session))
  <> [].
Proof.
  exact (proj2 (proj2 (one_error_iff_failed_submit
                         (world_status 500 (lit "Internal Server Error"))
                         sample_key (lit "peace") true sample_now
                         empty_session))
           (conj eq_refl (conj eq_refl eq_refl))).
Defined.

(** ** The payload of the download link *)

Lemma list_ind3 {A} (P : list A -> Prop) :
  P [] -> (forall x, P [x]) -> (forall x y, P [x; y]) ->
  (forall x y z l, P l -> P (x :: y :: z :: l)) ->
  forall l, P l.
Proof.
  intros H0 H1 H2 H3. fix IH 1.
  intros [|x [|y [|z l]]]; [exact H0 | apply H1 | apply H2 |].
  apply H3, IH.
Qed.

Lemma b64_symbol_char (i : N) :
  base64_char (b64_symbol i) = true /\ b64_symbol i <> 34.
Proof.
  unfold b64_symbol, base64_char.
  destruct (N.ltb_spec i 26);
    [| destruct (N.ltb_spec i 52);
       [| destruct (N.ltb_spec i 62); [| destruct (N.eqb_spec i 62)]]].
  all: split; [| lia].
  all: repeat match goal with
              | |- context [?a <=? ?b] => destruct (N.leb_spec a b); try lia
              end; reflexivity.
Qed.

Lemma b64_value_symbol (i : N) :
  i < 64 -> b64_value (b64_symbol i) = i /\ (b64_symbol i =? 61) = false.
Proof.
  intros Hi. rewrite N.eqb_neq. unfold b64_symbol, b64_value.
  destruct (N.ltb_spec i 26);
    [| destruct (N.ltb_spec i 52);
       [| destruct (N.ltb_spec i 62); [| destruct (N.eqb_spec i 62)]]].
  all: repeat match goal with
              | |- context [?a <=? ?b] => destruct (N.leb_spec a b); try lia
              end; cbn [andb]; try (split; lia).
  all: repeat match goal with
              | |- context [?a =? ?b] => destruct (N.eqb_spec a b); try lia
              end; try (split; lia).
Qed.

Ltac euclid := zify; Z.to_euclidean_division_equations; lia.

Lemma sextets_in_range (x y z : N) :
  x < 256 -> y < 256 -> z < 256 ->
  x / 4 < 64 /\ (x mod 4) * 16 + y / 16 < 64 /\ (x mod 4) * 16 < 64 /\
  (y mod 16) * 4 + z / 64 < 64 /\ (y mod 16) * 4 < 64 /\ z mod 64 < 64.
Proof. intros. repeat split; euclid. Qed.

Lemma first_byte (x y : N) :
  y < 256 -> (x / 4) * 4 + ((x mod 4) * 16 + y / 16) / 16 = x.
Proof. intros. euclid. Qed.

Lemma second_byte (x y z : N) :
  y < 256 -> z < 256 ->
  (((x mod 4) * 16 + y / 16) mod 16) * 16 + ((y mod 16) * 4 + z / 64) / 4
  = y.
Proof. intros. euclid. Qed.

Lemma third_byte (y z : N) :
  z < 256 -> (((y mod 16) * 4 + z / 64) mod 4) * 64 + z mod 64 = z.
Proof. intros. euclid. Qed.

#[local] Arguments b64encode _ : simpl nomatch.

(** Decoding what [b64encode] wrote gives the bytes back. *)
Lemma b64decode_b64encode (b : bytes) :
  Forall (fun x => x < 256) b -> b64decode (b64encode b) = b.
Proof.
  induction b as [| x | x y | x y z l IH] using list_ind3; intros Hb.
  - reflexivity.
  - inversion_clear Hb as [| ? ? Hx _].
    destruct (sextets_in_range x 0 0 Hx) as (H1 & _ & H2 & _); try lia.
    cbn [b64encode b64decode].
    destruct (b64_value_symbol _ H1) as [-> _].
    destruct (b64_value_symbol _ H2) as [-> _].
    cbn [N.eqb Pos.eqb]. f_equal.
    pose proof (first_byte x 0). cbn in *. rewrite N.add_0_r in *. lia.
  - inversion_clear Hb as [| ? ? Hx Hb']. inversion_clear Hb' as [| ? ? Hy _].
    destruct (sextets_in_range x y 0 Hx Hy) as (H1 & H2 & _ & _ & H3 & _);
      try lia.
    cbn [b64encode b64decode].
    destruct (b64_value_symbol _ H1) as [-> _].
    destruct (b64_value_symbol _ H2) as [-> _].
    destruct (b64_value_symbol _ H3) as [-> ->].
    cbn [N.eqb Pos.eqb].
    rewrite (first_byte x y Hy). f_equal. f_equal.
    pose proof (second_byte x y 0 Hy). cbn in *. rewrite N.add_0_r in *. lia.
  - inversion_clear Hb as [| ? ? Hx Hb']. inversion_clear Hb' as [| ? ? Hy Hb].
    inversion_clear Hb as [| ? ? Hz Hl].
    destruct (sextets_in_range x y z Hx Hy Hz) as (H1 & H2 & _ & H3 & _ & H4).
    cbn [b64encode b64decode].
    destruct (b64_value_symbol _ H1) as [-> _].
    destruct (b64_value_symbol _ H2) as [-> _].
    destruct (b64_value_symbol _ H3) as [-> ->].
    destruct (b64_value_symbol _ H4) as [-> ->].
    rewrite (first_byte x y Hy), (second_byte x y z Hy Hz),
      (third_byte y z Hz), (IH Hl).
    reflexivity.
Qed.

(** X15. The base64 text of the download link loses nothing of the
    encoded image: two byte strings with the same text are the same. *)
Theorem link_payload_tells_the_bytes (b1 b2 : bytes) :
  Forall (fun x => x < 256) b1 -> Forall (fun x => x < 256) b2 ->
  b64encode b1 = b64encode b2 -> b1 = b2.
Proof.
  intros H1 H2 E.
  rewrite <- (b64decode_b64encode b1 H1), <- (b64decode_b64encode b2 H2).
  now rewrite E.
Qed.

Lemma link_payload_tells_the_bytes_witness :
  Forall (fun x => x < 256) sample_png /\ sample_png = sample_png.
Proof.
  assert (H : Forall (fun x => x < 256) sample_png)
    by (unfold sample_png; repeat constructor).
  exact (conj H (link_payload_tells_the_bytes sample_png sample_png H H
                   eq_refl)).
Defined.

(** X16. The base64 text of the download link is made of letters,
    digits, [+], [/] and [=] only, so it holds no double quote that could
    end the [href] attribute it is written into; it has four characters
    for every three bytes, the last group padded. *)
Theorem link_payload_is_base64_text (b : bytes) :
  Forall (fun c => base64_char c = true) (b64encode b) /\
  ~ In 34 (b64encode b) /\
  List.length (b64encode b) = (4 * ((List.length b + 2) / 3))%nat.
Proof.
  induction b as [| x | x y | x y z l (IHc & IHq & IHl)] using list_ind3.
  - repeat split; [constructor | intros []].
  - cbn [b64encode List.length].
    repeat split.
    + repeat constructor; apply b64_symbol_char.
    + intros [H | [H | [H | [H | []]]]]; try discriminate H;
        now apply b64_symbol_char in H.
  - cbn [b64encode List.length].
    repeat split.
    + repeat constructor; apply b64_symbol_char.
    + intros [H | [H | [H | [H | []]]]]; try discriminate H;
        now apply b64_symbol_char in H.
  - cbn [b64encode List.length].
    repeat split.
    + repeat constructor; try apply b64_symbol_char. exact IHc.
    + intros [H | [H | [H | [H | H]]]]; try (now apply b64_symbol_char in H).
      exact (IHq H).
    + rewrite IHl.
      replace (S (S (S (List.length l))) + 2)%nat
        with ((List.length l + 2) + 1 * 3)%nat by lia.
      rewrite Nat.div_add by discriminate. lia.
Qed.

(** ** Drawing does not follow the inputs *)

(** X17. What a run without a submit draws and offers comes from the
    session state alone: the images and the markup are the same whatever
    stands in the two inputs. *)
Theorem rendering_ignores_the_inputs (W : World) (k1 t1 k2 t2 : str)
  (now : datetime) (s : SessionState) :
  let o1 := main W k1 t1 false now s in
  let o2 := main W k2 t2 false now s in
  session o1 = session o2 /\ result o1 = result o2 /\
  images_rendered (trace o1) = images_rendered (trace o2) /\
  markdowns (trace o1) = markdowns (trace o2).
Proof.
  cbv zeta. repeat split.
  - now rewrite !main_idle_run.
  - now rewrite !main_idle_run.
  - rewrite !main_idle_run. cbn [trace]. rewrite !images_rendered_app.
    destruct (negb (truthy (strip k1)) || negb (truthy (strip t1)));
      destruct (negb (truthy (strip k2)) || negb (truthy (strip t2)));
      reflexivity.
  - now rewrite !main_render_only.
Qed.

(** ** The download link, written and read back *)

Lemma b64encode_has_no_quote (b : bytes) : ~ In 34 (b64encode b).
Proof.
  induction b as [| x | x y | x y z l IH] using list_ind3;
    cbn [b64encode].
  - intros [].
  - intros [H | [H | [H | [H | []]]]]; try discriminate H;
      now apply b64_symbol_char in H.
  - intros [H | [H | [H | [H | []]]]]; try discriminate H;
      now apply b64_symbol_char in H.
  - intros [H | [H | [H | [H | H]]]]; try (now apply b64_symbol_char in H).
    exact (IH H).
Qed.

Lemma until_quote_app (payload rest : str) :
  ~ In 34 payload -> until_quote (payload ++ 34 :: rest) = payload.
Proof.
  induction payload as [|c payload IH]; intros Hq; cbn.
  - reflexivity.
  - destruct (N.eqb_spec c 34) as [-> | _].
    + exfalso. apply Hq. now left.
    + f_equal. apply IH. intros H. apply Hq. now right.
Qed.

(** The payload of the markup of line 122 is the text that was put in. *)
Lemma link_payload_anchor (img_str filename : str) :
  ~ In 34 img_str ->
  link_payload (download_anchor img_str filename) = img_str.
Proof.
  intros Hq. unfold link_payload, download_anchor.
  change (lit "<a href=" ++ dq ++ lit "data:image/png;base64,"
            ++ img_str ++ dq ++ ?rest)
    with (data_uri_prefix ++ img_str ++ 34 :: rest).
  rewrite skipn_app, skipn_all, Nat.sub_diag. cbn [skipn app].
  now apply until_quote_app.
Qed.

(** C9, as the code has it. For a validly decoded image that the PNG
    encoder can write, [get_image_download_link] returns, whatever the
    session state and without touching it, the markup whose payload is
    the base64 text of the encoder's bytes; read back out of the markup
    and decoded, the payload gives exactly those bytes, and so, for a
    lossless PNG codec, a bitmap with the pixel dimensions of the
    original image.  The function is not total: for an image the encoder
    cannot write, the exception of the encoder is not caught. *)
Theorem download_link_carries_the_image (W : World) (image : PILImage)
  (filename : str) (s : SessionState) (png : bytes) :
  Image_save_png W image = inr png ->
  Forall (fun x => x < 256) png ->
  keeps_dimensions W image ->
  let o := get_image_download_link W image filename s in
  exists markup,
    result o = inr markup /\ session o = s /\
    markup = download_anchor (b64encode png) filename /\
    b64decode (link_payload markup) = png /\
    exists decoded,
      Image_open W (b64decode (link_payload markup)) = inr decoded /\
      im_size decoded = im_size image.
Proof.
  intros Hp Hb Hk. cbv zeta.
  exists (download_anchor (b64encode png) filename).
  assert (Hback : b64decode
                    (link_payload
                       (download_anchor (b64encode png) filename)) = png).
  { rewrite link_payload_anchor by apply b64encode_has_no_quote.
    now apply b64decode_b64encode. }
  repeat split.
  - unfold get_image_download_link. run_script. rewrite Hp. reflexivity.
  - unfold get_image_download_link. run_script. rewrite Hp. reflexivity.
  - exact Hback.
  - rewrite Hback. apply Hk. now apply saved_image_loads in Hp.
Qed.

Lemma download_link_carries_the_image_witness :
  Image_save_png world_ok sample_image = inr sample_png /\
  exists markup,
    result (get_image_download_link world_ok sample_image
              (lit "mandala_peace_20240309_070501.png") empty_session)
    = inr markup /\
    session (get_image_download_link world_ok sample_image
               (lit "mandala_peace_20240309_070501.png") empty_session)
    = empty_session /\
    markup = download_anchor (b64encode sample_png)
               (lit "mandala_peace_20240309_070501.png") /\
    b64decode (link_payload markup) = sample_png /\
    exists decoded,
      Image_open world_ok (b64decode (link_payload markup)) = inr decoded /\
      im_size decoded = im_size sample_image.
Proof.
  split; [reflexivity |].
  assert (Hb : Forall (fun x => x < 256) sample_png)
    by (unfold sample_png; repeat constructor).
  assert (Hk : keeps_dimensions world_ok sample_image)
    by (intros png _; exists sample_image; split; reflexivity).
  exact (download_link_carries_the_image world_ok sample_image
           (lit "mandala_peace_20240309_070501.png") empty_session
           sample_png eq_refl Hb Hk).
Defined.

(** C9, as stated, fails: an image that was validly decoded and whose
    pixel data loads can still be one the PNG encoder cannot write, and
    then [get_image_download_link] raises. *)
Lemma encoder_can_fail_on_decoded_image :
  Image_open world_no_encoder sample_png = inr sample_image /\
  Image_load world_no_encoder sample_image = None /\
  result (get_image_download_link world_no_encoder sample_image
            (lit "mandala_peace_20240309_070501.png") empty_session)
  = inl (PyException (lit "cannot write mode CMYK as PNG")).
Proof. repeat split. Qed.
